(** * Chess clock: the timer engine of [script.js]

    A shallow embedding of the clock's state object, its handlers and the
    frame callback, followed by the properties of the engine.

    Numbers.  The quantities the clock computes with (minutes, seconds,
    milliseconds, frame timestamps) are JavaScript numbers.  The model
    takes a finite number to be the rational it denotes: [+], [-], [*] are
    exact instead of rounded to binary64 and never overflow, and
    [Math.max] is the maximum of the order.  A numeric field of the state
    can also hold [NaN] or [undefined], which is what a key of
    [Object.prototype] leaves there.  Statements that depend on the
    rounding say so: [binary64] marks the rationals that are doubles,
    [displayable] the times for which [formatTime] computes exactly, and
    [Binary64] has the products of [applyCustom] and [resetClock] on
    doubles.

    Effects.  The handlers write to the page (status line, button label,
    CSS classes, animation-frame requests, click sound).  Each write is
    recorded, in program order, in a log that is part of the modelled page. *)

From Stdlib Require Import QArith Qcanon Qround Ascii Lqa Floats.
From stdpp Require Import base decidable option list strings pretty gmap numbers.

Local Open Scope Qc_scope.

(** ** Numbers *)

(** What a numeric field of the state can hold: [undefined] (read off an
    object that has no such property), [NaN], or a finite number. *)
Inductive value :=
  | Undefined
  | NotANumber
  | Num (q : Qc).

Coercion Num : Qc >-> value.

Global Instance value_eq_dec : EqDecision value.
Proof. solve_decision. Defined.

(** Arithmetic converts its operands to numbers ([undefined] becomes
    [NaN]), and [NaN] is absorbing. *)
Definition js_add (a b : value) : value :=
  match a, b with
  | Num x, Num y => Num (x + y)
  | _, _ => NotANumber
  end.

Definition js_sub (a b : value) : value :=
  match a, b with
  | Num x, Num y => Num (x - y)
  | _, _ => NotANumber
  end.

Definition js_mul (a b : value) : value :=
  match a, b with
  | Num x, Num y => Num (x * y)
  | _, _ => NotANumber
  end.

(** [Math.max(a, b)]: [NaN] as soon as one argument is not a number. *)
Definition Math_max (a b : value) : value :=
  match a, b with
  | Num x, Num y => Num (if decide (x ≤ y) then y else x)
  | _, _ => NotANumber
  end.

(** [a === b]: [NaN] is equal to nothing, not even to itself. *)
Definition strict_eq (a b : value) : bool :=
  match a, b with
  | Num x, Num y => bool_decide (x = y)
  | Undefined, Undefined => true
  | _, _ => false
  end.

(** [a <= b] and [a < b]: false as soon as one side is not a number. *)
Definition js_le (a b : value) : Prop :=
  match a, b with
  | Num x, Num y => x ≤ y
  | _, _ => False
  end.

Definition js_lt (a b : value) : Prop :=
  match a, b with
  | Num x, Num y => x < y
  | _, _ => False
  end.

Arguments js_add : simpl nomatch.
Arguments js_sub : simpl nomatch.
Arguments js_mul : simpl nomatch.
Arguments Math_max : simpl nomatch.
Arguments strict_eq : simpl nomatch.

Declare Scope value_scope.
Delimit Scope value_scope with V.
Bind Scope value_scope with value.
Infix "+" := js_add : value_scope.
Infix "-" := js_sub : value_scope.
Infix "*" := js_mul : value_scope.
Infix "≤" := js_le : value_scope.
Infix "<" := js_lt : value_scope.
Local Open Scope value_scope.

(** What [Number(formData.get(..))] can produce from a text field. *)
Inductive number :=
  | Finite (q : Qc)
  | NaN
  | Infinity
  | NegInfinity.

(** The rationals that are binary64 doubles: [m * 2^e] with [|m| < 2^53]
    and [-1074 <= e <= 971].  An operation on doubles whose exact result is
    a double returns that result. *)
Definition binary64 (q : Qc) : Prop :=
  ∃ m e : Z,
    (Z.abs m < 2 ^ 53)%Z ∧ (-1074 ≤ e ≤ 971)%Z
    ∧ q = Q2Qc (inject_Z m * 2 ^ e)%Q.

(** ** The preset table *)

Record preset := Preset { label : string; minutes : Qc; increment : Qc }.

Definition preset_keys : list string :=
  ["classical"; "rapid"; "standard"; "blitz"; "bullet"].

Definition presets : gmap string preset :=
  list_to_map
    [ ("classical", Preset "Classical" (Qc_of_Z 90) (Qc_of_Z 30));
      ("rapid",     Preset "Rapid"     (Qc_of_Z 15) (Qc_of_Z 10));
      ("standard",  Preset "Standard"  (Qc_of_Z 10) (Qc_of_Z 0));
      ("blitz",     Preset "Blitz"     (Qc_of_Z 5)  (Qc_of_Z 3));
      ("bullet",    Preset "Bullet"    (Qc_of_Z 1)  (Qc_of_Z 1)) ].

(** [presets] is an object literal, so besides its five own properties it
    has the properties every object inherits from [Object.prototype]. *)
Definition Object_prototype : list string :=
  ["constructor"; "hasOwnProperty"; "isPrototypeOf"; "propertyIsEnumerable";
   "toLocaleString"; "toString"; "valueOf"; "__proto__";
   "__defineGetter__"; "__defineSetter__"; "__lookupGetter__";
   "__lookupSetter__"].

(** What [presets[key]] finds: an entry of the table, or an inherited
    property (a function, or the prototype itself), which is an object
    without [label], [minutes] and [increment]. *)
Inductive found :=
  | Entry (p : preset)
  | Inherited.

(** [presets[key]]; [None] is [undefined]. *)
Definition presets_get (key : string) : option found :=
  match presets !! key with
  | Some p => Some (Entry p)
  | None => if bool_decide (key ∈ Object_prototype) then Some Inherited else None
  end.

(** [preset.minutes], [preset.increment], and [preset.label] as the
    template literal prints it. *)
Definition minutes_of (preset : found) : value :=
  match preset with Entry p => Num (minutes p) | Inherited => Undefined end.

Definition increment_of (preset : found) : value :=
  match preset with Entry p => Num (increment p) | Inherited => Undefined end.

Definition label_text (preset : found) : string :=
  match preset with Entry p => label p | Inherited => "undefined" end.

(** ** The clock state *)

(** The two indices of [state.times]; the player buttons carry
    [data-player] 0 and 1. *)
Inductive player := P0 | P1.

Global Instance player_eq_dec : EqDecision player.
Proof. solve_decision. Defined.

(** [p === 0 ? 1 : 0] *)
Definition other (p : player) : player :=
  match p with P0 => P1 | P1 => P0 end.

Record State := mkState {
  baseMinutes : value;
  incrementSeconds : value;
  times : value * value;
  incrementMs : value;
  activePlayer : option player;
  running : bool;
  lastTick : option Qc;
  raf : option positive;
  presetKey : string
}.

(** [times[p]] and [times[p] = v]. *)
Definition time_of (p : player) (t : value * value) : value :=
  match p with P0 => t.1 | P1 => t.2 end.

Definition set_time (p : player) (v : value) (t : value * value) : value * value :=
  match p with P0 => (v, t.2) | P1 => (t.1, v) end.

(** Field assignments [state.f = v]. *)
Definition set_baseMinutes v s :=
  mkState v (incrementSeconds s) (times s) (incrementMs s) (activePlayer s)
          (running s) (lastTick s) (raf s) (presetKey s).
Definition set_incrementSeconds v s :=
  mkState (baseMinutes s) v (times s) (incrementMs s) (activePlayer s)
          (running s) (lastTick s) (raf s) (presetKey s).
Definition set_times v s :=
  mkState (baseMinutes s) (incrementSeconds s) v (incrementMs s) (activePlayer s)
          (running s) (lastTick s) (raf s) (presetKey s).
Definition set_incrementMs v s :=
  mkState (baseMinutes s) (incrementSeconds s) (times s) v (activePlayer s)
          (running s) (lastTick s) (raf s) (presetKey s).
Definition set_activePlayer v s :=
  mkState (baseMinutes s) (incrementSeconds s) (times s) (incrementMs s) v
          (running s) (lastTick s) (raf s) (presetKey s).
Definition set_running v s :=
  mkState (baseMinutes s) (incrementSeconds s) (times s) (incrementMs s) (activePlayer s)
          v (lastTick s) (raf s) (presetKey s).
Definition set_lastTick v s :=
  mkState (baseMinutes s) (incrementSeconds s) (times s) (incrementMs s) (activePlayer s)
          (running s) v (raf s) (presetKey s).
Definition set_raf v s :=
  mkState (baseMinutes s) (incrementSeconds s) (times s) (incrementMs s) (activePlayer s)
          (running s) (lastTick s) v (presetKey s).
Definition set_presetKey v s :=
  mkState (baseMinutes s) (incrementSeconds s) (times s) (incrementMs s) (activePlayer s)
          (running s) (lastTick s) (raf s) v.

(** ** The page *)

(** Writes to the document and calls into the browser. *)
Inductive effect :=
  | StatusText (text : string)
      (* statusEl.textContent = text *)
  | StartPauseText (text : string)
      (* startPauseBtn.textContent = text *)
  | TimeText (p : player) (ms : value)
      (* timeEls[p].textContent = formatTime(ms) *)
  | IncrementText (seconds : value)
      (* incrementEls[..].textContent = `+${seconds}s` *)
  | PlayerClasses (p : player) (active flagged inactive : bool)
      (* the three classList.toggle calls on playerButtons[p] *)
  | LayoutPlaying (on : bool)
      (* app--playing / app-playing toggled to [on] *)
  | RequestAnimationFrame (h : positive)
  | CancelAnimationFrame (h : positive)
  | FormValues (minutes increment : value)
      (* customForm.minutes.value, customForm.increment.value *)
  | PresetHighlight (key : string)
      (* preset--active toggled on the button whose data-preset is [key] *)
  | ModalShown
  | ModalHidden
  | ClickSound (slot : nat)
      (* clickPool[slot].play() *)
  | BeforeUnloadBound.

(** The script's globals together with the part of the document it reads
    back: [confirming] is the class [app--confirming] on the app element,
    [frames] the browser's next animation-frame request id. *)
Record page := mkPage {
  state : State;
  clickPoolIndex : nat;
  confirming : bool;
  frames : positive;
  log : list effect
}.

Definition on_state (f : State -> State) (w : page) : page :=
  mkPage (f (state w)) (clickPoolIndex w) (confirming w) (frames w) (log w).

Definition emit (e : effect) (w : page) : page :=
  mkPage (state w) (clickPoolIndex w) (confirming w) (frames w) (log w ++ [e]).

Definition set_confirming (b : bool) (w : page) : page :=
  mkPage (state w) (clickPoolIndex w) b (frames w) (log w).

Definition set_clickPoolIndex (i : nat) (w : page) : page :=
  mkPage (state w) i (confirming w) (frames w) (log w).

Definition CLICK_POOL_SIZE : nat := 4.

(** Statements run in program order: [c1 >> c2] is [c1; c2]. *)
Definition cmd := page -> page.
Definition andThen (c1 c2 : cmd) : cmd := fun w => c2 (c1 w).
Infix ">>" := andThen (at level 61, left associativity).

(** ** Presentation and browser calls *)

Definition setStatus (text : string) : cmd := emit (StatusText text).

Definition render : cmd := fun w =>
  (emit (TimeText P0 (time_of P0 (times (state w))))
   >> emit (TimeText P1 (time_of P1 (times (state w))))
   >> emit (IncrementText (incrementSeconds (state w)))
   >> emit (IncrementText (incrementSeconds (state w)))) w.

Definition toggle_classes (idx : player) : cmd := fun w =>
  let s := state w in
  let isActive := bool_decide (activePlayer s = Some idx) && running s in
  let isInactive := running s && negb (bool_decide (activePlayer s = Some idx)) in
  emit (PlayerClasses idx isActive (strict_eq (time_of idx (times s)) 0) isInactive) w.

Definition updateActiveClasses : cmd := toggle_classes P0 >> toggle_classes P1.

Definition updateLayoutState : cmd := fun w =>
  emit (LayoutPlaying (running (state w))) w.

Definition highlightPreset : cmd := fun w =>
  emit (PresetHighlight (presetKey (state w))) w.

Definition openResetModal : cmd := fun w =>
  if confirming w then w
  else (set_confirming true >> emit ModalShown) w.

Definition closeResetModal : cmd := fun w =>
  if negb (confirming w) then w
  else (set_confirming false >> emit ModalHidden) w.

Definition playClickSound : cmd := fun w =>
  let audio := clickPoolIndex w in
  (set_clickPoolIndex ((clickPoolIndex w + 1) `mod` CLICK_POOL_SIZE)
   >> emit (ClickSound audio)) w.

(** ** The engine *)

Definition stopClock : cmd := fun w =>
  let w := (on_state (set_running false) >> updateLayoutState) w in
  match raf (state w) with
  | Some h => (emit (CancelAnimationFrame h) >> on_state (set_raf None)) w
  | None => w
  end.

(** [state.raf = requestAnimationFrame(step)]: the browser hands out the
    next request id. *)
Definition scheduleTick : cmd := fun w =>
  let h := frames w in
  let w := mkPage (state w) (clickPoolIndex w) (confirming w) (Pos.succ h)
                  (log w ++ [RequestAnimationFrame h]) in
  on_state (set_raf (Some h)) w.

Definition resetClock : cmd := fun w =>
  let base := baseMinutes (state w) * Qc_of_Z 60 * Qc_of_Z 1000 in
  (on_state (set_times (base, base))
   >> on_state (set_activePlayer None)
   >> on_state (set_lastTick None)
   >> render
   >> updateActiveClasses
   >> emit (StartPauseText "Start")
   >> setStatus "Ready") w.

Definition applyPreset (key : string) : cmd := fun w =>
  match presets_get key with
  | None => w
  | Some preset =>
      (on_state (set_presetKey key)
       >> on_state (set_baseMinutes (minutes_of preset))
       >> on_state (set_incrementSeconds (increment_of preset))
       >> on_state (set_incrementMs (increment_of preset * Qc_of_Z 1000))
       >> stopClock
       >> resetClock
       >> setStatus (label_text preset +:+ " loaded")
       >> emit (FormValues (minutes_of preset) (increment_of preset))
       >> highlightPreset) w
  end.

Definition applyCustom (minutes increment : value) : cmd :=
  on_state (set_presetKey "custom")
  >> on_state (set_baseMinutes (Math_max 1 minutes))
  >> on_state (set_incrementSeconds (Math_max 0 increment))
  >> on_state (fun s => set_incrementMs (incrementSeconds s * Qc_of_Z 1000) s)
  >> stopClock
  >> resetClock
  >> setStatus "Custom control loaded"
  >> highlightPreset.

Definition requestReset : cmd := openResetModal.

Definition confirmReset : cmd := closeResetModal >> stopClock >> resetClock.

Definition toggleStart : cmd := fun w =>
  if running (state w) then
    (stopClock >> setStatus "Paused" >> emit (StartPauseText "Resume")) w
  else
    let w := match activePlayer (state w) with
             | None => on_state (set_activePlayer (Some P0)) w
             | Some _ => w
             end in
    (on_state (set_running true)
     >> on_state (set_lastTick None)
     >> emit (StartPauseText "Pause")
     >> setStatus "Playing"
     >> updateActiveClasses
     >> updateLayoutState
     >> scheduleTick) w.

Definition flagPlayer (player : player) : cmd :=
  let loser := match player with P0 => "White" | P1 => "Black" end in
  let winner := match player with P0 => "Black" | P1 => "White" end in
  stopClock
  >> updateActiveClasses
  >> setStatus (loser +:+ " flagged. " +:+ winner +:+ " wins.")
  >> emit (StartPauseText "Restart").

(** [timestamp - state.lastTick] reads the field as a number; [null]
    converts to 0. *)
Definition to_number (x : option Qc) : Qc := default 0%Qc x.

Definition step (timestamp : Qc) : cmd := fun w =>
  if negb (running (state w)) then w else
  let w := match lastTick (state w) with
           | None => on_state (set_lastTick (Some timestamp)) w
           | Some _ => w
           end in
  let delta := (timestamp - to_number (lastTick (state w)))%Qc in
  let w := on_state (set_lastTick (Some timestamp)) w in
  match activePlayer (state w) with
  | Some player =>
      let w := on_state (fun s =>
                 set_times (set_time player
                              (Math_max 0 (time_of player (times s) - delta))
                              (times s)) s) w in
      if strict_eq (time_of player (times (state w))) 0
      then flagPlayer player w
      else (render >> scheduleTick) w
  | None => (render >> scheduleTick) w
  end.

Definition handlePlayerTap (playerIndex : player) : cmd := fun w =>
  if negb (running (state w))
     || negb (bool_decide (activePlayer (state w) = Some playerIndex))
  then w else
  if strict_eq (time_of playerIndex (times (state w))) 0 then w else
  (on_state (fun s =>
     set_times (set_time playerIndex
                  (time_of playerIndex (times s) + incrementMs s)
                  (times s)) s)
   >> on_state (set_activePlayer (Some (other playerIndex)))
   >> on_state (set_lastTick None)
   >> updateActiveClasses
   >> render) w.

Definition handlePlayerTapStart (playerIndex : player) : cmd := fun w =>
  if negb (running (state w))
     || negb (bool_decide (activePlayer (state w) = Some playerIndex))
  then w
  else playClickSound w.

Definition swapPlayers : cmd :=
  on_state (fun s => set_times ((times s).2, (times s).1) s)
  >> (fun w => match activePlayer (state w) with
               | Some p => on_state (set_activePlayer (Some (other p))) w
               | None => w
               end)
  >> updateActiveClasses
  >> render.

(** ** Start-up and the event handlers bound by [bindEvents] *)

Definition initial_state : State :=
  mkState (Qc_of_Z 15) (Qc_of_Z 10) (Num 0, Num 0) (Qc_of_Z 10 * Qc_of_Z 1000)
          None false None None "rapid".

Definition initial_page : page := mkPage initial_state 0 false 1%positive [].

Definition init : cmd := fun w =>
  (applyPreset (presetKey (state w))
   >> render
   >> updateLayoutState
   >> emit BeforeUnloadBound) w.

(** The submit listener of the custom form:
    [if (Number.isFinite(minutes) && Number.isFinite(increment)) applyCustom(..)]. *)
Definition customSubmit (minutes increment : number) : cmd :=
  match minutes, increment with
  | Finite m, Finite i => applyCustom m i
  | _, _ => fun w => w
  end.

Inductive event :=
  | PlayerPointerDown (p : player)
  | PlayerClick (p : player)
  | PresetClick (key : string)
  | CustomSubmit (minutes increment : number)
  | StartPauseClick
  | ResetClick
  | SwapClick
  | ConfirmResetClick
  | CancelResetClick
  | BackdropClick
  | EscapeKey
  | AnimationFrame (timestamp : Qc).

Definition handle (e : event) : cmd :=
  match e with
  | PlayerPointerDown p => handlePlayerTapStart p
  | PlayerClick p => handlePlayerTap p
  | PresetClick key => applyPreset key
  | CustomSubmit minutes increment => customSubmit minutes increment
  | StartPauseClick => toggleStart
  | ResetClick => requestReset
  | SwapClick => swapPlayers
  | ConfirmResetClick => confirmReset
  | CancelResetClick | BackdropClick | EscapeKey => closeResetModal
  | AnimationFrame timestamp => step timestamp
  end.

(** The page after start-up and a sequence of events. *)
Definition run (events : list event) (w : page) : page :=
  foldl (fun w e => handle e w) w events.

Inductive reachable : page -> Prop :=
  | reachable_init : reachable (init initial_page)
  | reachable_handle e w : reachable w -> reachable (handle e w).

(** ** Vocabulary of the statements *)

(** Consecutive frame callbacks. *)
Definition steps (timestamps : list Qc) (w : page) : page :=
  foldl (fun w t => step t w) w timestamps.

(** What a command adds to the log. *)
Definition emitted (c : cmd) (w : page) : list effect :=
  drop (length (log w)) (log (c w)).

(** The status line written by [flagPlayer]. *)
Definition flag_status (p : player) : effect :=
  match p with
  | P0 => StatusText "White flagged. Black wins."
  | P1 => StatusText "Black flagged. White wins."
  end.

(** The frame callback's update of a running clock with active side [p]:
    [delta] is the time since the previous frame, and 0 on a frame that
    finds [lastTick] at [null]. *)
Definition delta_of (timestamp : Qc) (s : State) : Qc :=
  match lastTick s with
  | None => 0%Qc
  | Some last => (timestamp - last)%Qc
  end.

Definition ticked (timestamp : Qc) (p : player) (s : State) : State :=
  set_times (set_time p (Math_max 0 (time_of p (times s) - delta_of timestamp s))
                      (times s))
            (set_lastTick (Some timestamp) s).

(** Side [p] is out of time.  If the clock has been set running again,
    the next frame is a baseline frame. *)
Definition flagged (p : player) (s : State) : Prop :=
  activePlayer s = Some p
  ∧ time_of p (times s) = 0
  ∧ (running s = true → lastTick s = None).

(** The events that neither load a time control, reset, nor swap. *)
Definition play_event (e : event) : bool :=
  match e with
  | PresetClick _ | CustomSubmit _ _ | ConfirmResetClick | SwapClick => false
  | _ => true
  end.

(** The events whose preset key, if they carry one, is not a name
    inherited from [Object.prototype]: [presets[key]] is an entry of the
    table or [undefined]. *)
Definition not_inherited (e : event) : bool :=
  match e with
  | PresetClick key => negb (bool_decide (key ∈ Object_prototype))
  | _ => true
  end.

(** A command that only adds to the log. *)
Definition appends (c : cmd) : Prop := ∀ w, ∃ l, log (c w) = log w ++ l.

(** No remaining time, no increment and no base time is negative. *)
Record clock_ok (s : State) : Prop := ClockOk {
  ok_time0 : 0 ≤ (times s).1;
  ok_time1 : 0 ≤ (times s).2;
  ok_incrementMs : 0 ≤ incrementMs s;
  ok_baseMinutes : 0 ≤ baseMinutes s
}.

(** The numbers are gone: what loading a key of [Object.prototype] leaves,
    until the next time control. *)
Record clock_lost (s : State) : Prop := ClockLost {
  lost_times : times s = (NotANumber, NotANumber);
  lost_incrementMs : incrementMs s = NotANumber;
  lost_baseMinutes : baseMinutes s = Undefined;
  lost_incrementSeconds : incrementSeconds s = Undefined;
  lost_key : presetKey s ∈ Object_prototype
}.

(** In every reachable state the clock is in order or its numbers are
    lost. *)
Definition clock_inv (s : State) : Prop := clock_ok s ∨ clock_lost s.

(** The state right after a time control of [t] minutes and [i] seconds
    has been applied. *)
Definition control_applied (t i : Qc) (s : State) : Prop :=
  times s = (Num (t * Qc_of_Z 60000), Num (t * Qc_of_Z 60000))
  ∧ incrementMs s = Num (i * Qc_of_Z 1000)
  ∧ activePlayer s = None
  ∧ running s = false.

(** ** The same products on doubles *)

(** [applyCustom] and [resetClock] compute the base time with two
    multiplications, each rounded to binary64. *)
Module Binary64.

(** [Math.max(a, b)]: [NaN] if one argument is, and [+0] for the two
    zeros, whose sum it is. *)
Definition Math_max (a b : float) : float :=
  if (PrimFloat.is_nan a || PrimFloat.is_nan b)%bool then PrimFloat.nan
  else if PrimFloat.ltb a b then b
  else if PrimFloat.ltb b a then a
  else if PrimFloat.is_zero a then (a + b)%float
  else a.

(** [state.baseMinutes * 60 * 1000] in [resetClock]. *)
Definition base (baseMinutes : float) : float := (baseMinutes * 60 * 1000)%float.

(** [state.times[0]] after [applyCustom(minutes, _)]. *)
Definition applyCustom_time (minutes : float) : float :=
  base (Math_max 1 minutes).

End Binary64.

(** ** The clock face *)

(** [String(n)] for an integer [n]: its decimal digits.  (JavaScript
    prints integers this way below 10^21.) *)
Definition String_of (n : Z) : string := pretty n.

Fixpoint repeat_char (n : nat) (c : Ascii.ascii) : string :=
  match n with
  | O => ""
  | S n => String c (repeat_char n c)
  end.

(** [s.padStart(targetLength, c)] for a one-character pad string. *)
Definition padStart (targetLength : nat) (c : Ascii.ascii) (s : string) : string :=
  repeat_char (targetLength - String.length s) c +:+ s.

(** [Math.ceil(ms / 1000)], [Math.floor(totalSeconds / 60)] and
    [totalSeconds % 60] (the remainder takes the sign of [totalSeconds]). *)
Definition totalSeconds_of (ms : Qc) : Z := Qceiling (this ms / 1000).

(** For [NaN] (and [undefined], which the division turns into [NaN]) every
    step gives [NaN], printed as it is: "NaN" is longer than the padding. *)
Definition formatTime (ms : value) : string :=
  match ms with
  | Num ms =>
      let totalSeconds := totalSeconds_of ms in
      let minutes := (totalSeconds `div` 60)%Z in
      let seconds := Z.rem totalSeconds 60 in
      String_of minutes +:+ ":" +:+ padStart 2 "0"%char (String_of seconds)
  | _ => "NaN:NaN"
  end.

(** The times for which the doubles of [formatTime] are the numbers of the
    model: 0, and from the smallest normal double, [2^-1022], where
    [ms / 1000] cannot round to 0, up to [2^53], below which every whole
    number of seconds and of minutes is a double and is printed with all
    its digits. *)
Definition displayable (ms : Qc) : Prop :=
  ms = 0%Qc
  ∨ (Q2Qc (2 ^ (-1022))%Q ≤ ms ∧ ms ≤ Qc_of_Z (2 ^ 53))%Qc.

(** What the document shows: every element keeps the last value written
    to it.  The two time elements hold [formatTime] of the value passed by
    [render]. *)
Record screen := mkScreen {
  statusText : option string;
  startPauseText : option string;
  timeText : option string * option string;
  incrementText : option value;
  layoutPlaying : option bool;
  highlighted : option string
}.

Definition blank : screen := mkScreen None None (None, None) None None None.

Definition paint (d : screen) (e : effect) : screen :=
  match e with
  | StatusText text =>
      mkScreen (Some text) (startPauseText d) (timeText d) (incrementText d)
               (layoutPlaying d) (highlighted d)
  | StartPauseText text =>
      mkScreen (statusText d) (Some text) (timeText d) (incrementText d)
               (layoutPlaying d) (highlighted d)
  | TimeText P0 ms =>
      mkScreen (statusText d) (startPauseText d)
               (Some (formatTime ms), (timeText d).2) (incrementText d)
               (layoutPlaying d) (highlighted d)
  | TimeText P1 ms =>
      mkScreen (statusText d) (startPauseText d)
               ((timeText d).1, Some (formatTime ms)) (incrementText d)
               (layoutPlaying d) (highlighted d)
  | IncrementText seconds =>
      mkScreen (statusText d) (startPauseText d) (timeText d) (Some seconds)
               (layoutPlaying d) (highlighted d)
  | LayoutPlaying on =>
      mkScreen (statusText d) (startPauseText d) (timeText d) (incrementText d)
               (Some on) (highlighted d)
  | PresetHighlight key =>
      mkScreen (statusText d) (startPauseText d) (timeText d) (incrementText d)
               (layoutPlaying d) (Some key)
  | _ => d
  end.

Definition screen_of (l : list effect) : screen := foldl paint blank l.

Definition shown_time (p : player) (d : screen) : option string :=
  match p with P0 => (timeText d).1 | P1 => (timeText d).2 end.

(** ** Leaving the page and the keyboard in the reset dialog *)

(** [handleBeforeUnload]: [true] when the handler asks the browser to
    confirm ([event.preventDefault()], [event.returnValue = ""]). *)
Definition handleBeforeUnload (w : page) : bool :=
  if negb (running (state w)) then false else true.

Definition handleResetModalKey (key : string) : cmd := fun w =>
  if bool_decide (key = "Escape") then closeResetModal w else w.

(** The [keydown] listener is on the document only between
    [openResetModal] and [closeResetModal]. *)
Definition keydown (key : string) : cmd := fun w =>
  if confirming w then handleResetModalKey key w else w.

(** ** Vocabulary of the further properties *)

(** The four ways a frame callback can end. *)
Inductive step_outcome (timestamp : Qc) (w : page) : State → Prop :=
  | step_ignored :
      running (state w) = false →
      step_outcome timestamp w (state w)
  | step_no_side :
      running (state w) = true →
      activePlayer (state w) = None →
      step_outcome timestamp w
        (set_raf (Some (frames w)) (set_lastTick (Some timestamp) (state w)))
  | step_flagged p :
      running (state w) = true →
      activePlayer (state w) = Some p →
      time_of p (times (ticked timestamp p (state w))) = 0 →
      step_outcome timestamp w
        (set_raf None (set_running false (ticked timestamp p (state w))))
  | step_scheduled p :
      running (state w) = true →
      activePlayer (state w) = Some p →
      time_of p (times (ticked timestamp p (state w))) ≠ 0 →
      step_outcome timestamp w
        (set_raf (Some (frames w)) (ticked timestamp p (state w))).

(** The events that load a time control. *)
Definition is_control (e : event) : bool :=
  match e with
  | PresetClick _ | CustomSubmit _ _ => true
  | _ => false
  end.

(** The time control in force: base minutes, increment in seconds and in
    milliseconds, and the selected key. *)
Definition settings (s : State) : value * value * value * string :=
  (baseMinutes s, incrementSeconds s, incrementMs s, presetKey s).

(** The settings agree with each other and with the preset table. *)
Record settings_ok (s : State) : Prop := SettingsOk {
  increment_in_ms : incrementMs s = incrementSeconds s * Qc_of_Z 1000;
  minutes_at_least_1 : 1 ≤ baseMinutes s;
  increment_nonneg : 0 ≤ incrementSeconds s;
  key_matches :
    presetKey s = "custom"
    ∨ ∃ p, presets !! presetKey s = Some p
           ∧ baseMinutes s = minutes p ∧ incrementSeconds s = increment p
}.

(** A running clock has a frame requested and a side to move; a stopped
    clock has no frame requested. *)
Record schedule_ok (s : State) : Prop := ScheduleOk {
  running_iff_frame : running s = true ↔ is_Some (raf s);
  running_has_side : running s = true → is_Some (activePlayer s)
}.

(** The document agrees with the state: the layout class, the label of the
    Start/Pause button and the status line say whether the clock runs, the
    increment and the highlighted preset are the ones in force, and each
    time element shows the remaining time of its side, except that the
    clock of a side that has run out may still show what it showed
    before. *)
Record face_ok (w : page) : Prop := FaceOk {
  face_layout :
    layoutPlaying (screen_of (log w)) = Some (running (state w));
  face_button :
    startPauseText (screen_of (log w)) = Some "Pause"
    ↔ running (state w) = true;
  face_status :
    statusText (screen_of (log w)) = Some "Playing"
    ↔ running (state w) = true;
  face_increment :
    incrementText (screen_of (log w)) = Some (incrementSeconds (state w));
  face_highlight :
    highlighted (screen_of (log w)) = Some (presetKey (state w));
  face_times : ∀ p,
    shown_time p (screen_of (log w))
    = Some (formatTime (time_of p (times (state w))))
    ∨ (activePlayer (state w) = Some p ∧ time_of p (times (state w)) = 0)
}.

(** The classes last toggled on the button of side [p]: active, flagged,
    inactive. *)
Definition paint_classes (p : player) (c : option (bool * bool * bool))
    (e : effect) : option (bool * bool * bool) :=
  match e with
  | PlayerClasses q active flagged inactive =>
      if decide (q = p) then Some (active, flagged, inactive) else c
  | _ => c
  end.

Definition classes_of (p : player) (l : list effect) :
    option (bool * bool * bool) :=
  foldl (paint_classes p) None l.

(** The flagged class is on exactly for a side at 0, and while the clock
    runs the active class marks the side to move and the inactive class
    the other side. *)
Definition classes_ok (w : page) : Prop :=
  ∀ p, ∃ active inactive,
    classes_of p (log w)
    = Some (active, strict_eq (time_of p (times (state w))) 0, inactive)
    ∧ (running (state w) = true →
       active = bool_decide (activePlayer (state w) = Some p)
       ∧ inactive = negb active).

(** A running clock whose side to move is at 0 has just been started. *)
Definition zero_ok (s : State) : Prop :=
  ∀ p, running s = true → activePlayer s = Some p →
       time_of p (times s) = 0 → lastTick s = None.

(** * Properties *)

Create HintDb clock discriminated.
Create HintDb log discriminated.

(** ** Numbers *)

(** Closed (in)equalities between rational constants, by evaluation. *)
Ltac qc_closed :=
  first [ apply Qle_bool_iff | apply Qc_is_canon ]; vm_compute; reflexivity.

(** Closed equalities between values, and pairs of values. *)
Ltac value_closed :=
  vm_compute;
  repeat match goal with
         | |- Num _ = Num _ => apply (f_equal Num)
         | |- (_, _) = (_, _) => apply (f_equal2 pair)
         end;
  first [ reflexivity | apply Qc_is_canon; reflexivity ].

Lemma js_le_inv a b : a ≤ b → ∃ x y : Qc, a = x ∧ b = y ∧ (x ≤ y)%Qc.
Proof. destruct a, b; try done. intros. by eexists _, _. Qed.

Lemma js_le_0_inv a : 0 ≤ a → ∃ x : Qc, a = x ∧ (0 ≤ x)%Qc.
Proof. intros (? & x & [= <-] & -> & ?)%js_le_inv. by exists x. Qed.

Lemma Math_max_ge_l (a b : Qc) : a ≤ Math_max a b.
Proof. cbn. case_decide; [done | reflexivity]. Qed.

Lemma Math_max_ge_r (a b : Qc) : b ≤ Math_max a b.
Proof.
  cbn. case_decide; [reflexivity |].
  by apply Qclt_le_weak, Qclt_nge.
Qed.

Lemma Math_max_right a b : a ≤ b → Math_max a b = b.
Proof.
  intros (x & y & -> & -> & Hle)%js_le_inv. cbn. by rewrite decide_True.
Qed.

Lemma Math_max_left a b : b ≤ a → Math_max a b = a.
Proof.
  intros (y & x & -> & -> & Hle)%js_le_inv. cbn.
  case_decide as Hab; [| done]. f_equal. by apply Qcle_antisym.
Qed.

(** Comparing with a number: [a === q] holds for [q] only. *)
Lemma strict_eq_true a (q : Qc) : strict_eq a q = true ↔ a = q.
Proof.
  destruct a as [| | x]; cbn; [done | done |].
  rewrite bool_decide_eq_true. split; [by intros -> | by intros [= ->]].
Qed.

Lemma strict_eq_false a (q : Qc) : strict_eq a q = false ↔ a ≠ q.
Proof.
  rewrite <-strict_eq_true. by destruct (strict_eq a q).
Qed.

Lemma Qc_sub_diag (a : Qc) : (a - a = 0)%Qc.
Proof. ring. Qed.

Lemma Qc_sub_0_r (a : Qc) : (a - 0 = a)%Qc.
Proof. ring. Qed.

Lemma minutes_to_ms (t : Qc) :
  (t * Qc_of_Z 60 * Qc_of_Z 1000 = t * Qc_of_Z 60000)%Qc.
Proof.
  by rewrite <-Qcmult_assoc, <-Z2Qc_inj_mul.
Qed.

(** A frame with no time elapsed leaves a clock that holds a number, or
    [NaN], as it is. *)
Lemma Math_max_0_sub_0 a :
  0 ≤ a ∨ a = NotANumber → Math_max 0 (a - 0%Qc) = a.
Proof.
  intros [(x & -> & Hx)%js_le_0_inv | ->]; [| done].
  cbn. by rewrite Qc_sub_0_r, decide_True.
Qed.

(** ** The preset table *)

Lemma presets_lookup_Some key p :
  presets !! key = Some p → 1 ≤ minutes p ∧ 0 ≤ increment p.
Proof.
  intros H%elem_of_list_to_map_2.
  repeat (apply elem_of_cons in H as [H | H];
          [injection H as -> ->; split; qc_closed |]).
  by apply elem_of_nil in H.
Qed.

Lemma presets_lookup_None key : presets !! key = None ↔ key ∉ preset_keys.
Proof.
  rewrite <-not_elem_of_dom. unfold presets, preset_keys.
  rewrite dom_list_to_map_L. simpl. set_solver.
Qed.

(** [presets[key]] in its three cases: an own entry, an inherited
    property, [undefined]. *)
Lemma presets_get_entry key p :
  presets !! key = Some p → presets_get key = Some (Entry p).
Proof. intros Hp. unfold presets_get. by rewrite Hp. Qed.

Lemma presets_get_inherited key :
  key ∈ Object_prototype → presets_get key = Some Inherited.
Proof.
  intros H. unfold Object_prototype in H.
  repeat (apply elem_of_cons in H as [-> | H]; [by vm_compute |]).
  by apply elem_of_nil in H.
Qed.

Lemma presets_get_undefined key :
  key ∉ preset_keys → key ∉ Object_prototype → presets_get key = None.
Proof.
  intros Hown%presets_lookup_None Hproto. unfold presets_get.
  by rewrite Hown, bool_decide_eq_false_2.
Qed.

Lemma presets_get_table key o :
  key ∉ Object_prototype → presets_get key = Some o →
  ∃ p, presets !! key = Some p ∧ o = Entry p.
Proof.
  intros Hproto. unfold presets_get.
  destruct (presets !! key) as [p |]; [intros [= <-]; by exists p |].
  by rewrite bool_decide_eq_false_2.
Qed.

Lemma Object_prototype_not_preset key :
  key ∈ Object_prototype → (key ∉ preset_keys) ∧ key ≠ "custom".
Proof.
  intros H. unfold Object_prototype in H.
  repeat (apply elem_of_cons in H as [-> | H];
          [split; [apply presets_lookup_None; vm_compute; reflexivity | done] |]).
  by apply elem_of_nil in H.
Qed.

(** ** What the presentation commands leave alone *)

Lemma state_emit e w : state (emit e w) = state w.
Proof. done. Qed.

Lemma state_setStatus text w : state (setStatus text w) = state w.
Proof. done. Qed.

Lemma state_render w : state (render w) = state w.
Proof. done. Qed.

Lemma state_updateActiveClasses w : state (updateActiveClasses w) = state w.
Proof. done. Qed.

Lemma state_updateLayoutState w : state (updateLayoutState w) = state w.
Proof. done. Qed.

Lemma state_highlightPreset w : state (highlightPreset w) = state w.
Proof. done. Qed.

Lemma state_openResetModal w : state (openResetModal w) = state w.
Proof. unfold openResetModal. by destruct (confirming w). Qed.

Lemma state_closeResetModal w : state (closeResetModal w) = state w.
Proof. unfold closeResetModal. by destruct (confirming w). Qed.

Lemma state_playClickSound w : state (playClickSound w) = state w.
Proof. done. Qed.

(** ** The engine commands on the state object *)

Lemma state_stopClock w :
  state (stopClock w) = set_raf None (set_running false (state w)).
Proof.
  unfold stopClock, andThen.
  destruct w as [[bm isec tm ims ap rn lt rf pk] c f fr l]; cbn.
  by destruct rf.
Qed.

Lemma state_scheduleTick w :
  state (scheduleTick w) = set_raf (Some (frames w)) (state w).
Proof. done. Qed.

Lemma state_resetClock w :
  state (resetClock w) =
    let base := baseMinutes (state w) * Qc_of_Z 60 * Qc_of_Z 1000 in
    set_lastTick None (set_activePlayer None (set_times (base, base) (state w))).
Proof. done. Qed.

Lemma state_flagPlayer p w :
  state (flagPlayer p w) = set_raf None (set_running false (state w)).
Proof.
  unfold flagPlayer, andThen.
  by rewrite state_emit, state_setStatus, state_updateActiveClasses, state_stopClock.
Qed.

Lemma state_swapPlayers w :
  state (swapPlayers w) =
    set_activePlayer (other <$> activePlayer (state w))
      (set_times ((times (state w)).2, (times (state w)).1) (state w)).
Proof.
  unfold swapPlayers, andThen.
  rewrite state_render, state_updateActiveClasses.
  destruct w as [[bm isec tm ims ap rn lt rf pk] c f fr l]; cbn.
  by destruct ap.
Qed.

Lemma other_involutive p : other (other p) = p.
Proof. by destruct p. Qed.

Lemma time_of_set_time p v t : time_of p (set_time p v t) = v.
Proof. by destruct p. Qed.

Lemma time_of_set_time_other p v t :
  time_of (other p) (set_time p v t) = time_of (other p) t.
Proof. by destruct p. Qed.

Lemma set_time_id p t : set_time p (time_of p t) t = t.
Proof. by destruct p, t. Qed.

(** ** The frame callback *)

Lemma step_paused timestamp w : running (state w) = false → step timestamp w = w.
Proof. intros H. unfold step. by rewrite H. Qed.

Lemma steps_paused timestamps w :
  running (state w) = false → steps timestamps w = w.
Proof.
  intros H. induction timestamps as [| t timestamps IH]; [done |].
  cbn. by rewrite step_paused.
Qed.

(** A running clock with an active side: the callback updates the state
    with [ticked] and then either flags or schedules the next frame. *)
Section running_clock.
Context (timestamp : Qc) (w : page) (p : player).
Hypothesis Hrun : running (state w) = true.
Hypothesis Hact : activePlayer (state w) = Some p.

Lemma step_running :
  step timestamp w =
    if strict_eq (time_of p (times (ticked timestamp p (state w)))) 0
    then flagPlayer p (on_state (ticked timestamp p) w)
    else scheduleTick (render (on_state (ticked timestamp p) w)).
Proof.
  unfold step. rewrite Hrun. cbn [negb].
  destruct w as [s c f fr l]. cbn in Hrun, Hact.
  unfold ticked, delta_of. cbn [state lastTick on_state].
  destruct (lastTick s) as [last |] eqn:Hlast.
  - cbn. rewrite Hact. unfold on_state. cbn. by rewrite Hlast.
  - cbn. rewrite Hact. unfold on_state. cbn. rewrite Hlast.
    by rewrite Qc_sub_diag.
Qed.

Lemma step_flags :
  time_of p (times (ticked timestamp p (state w))) = 0 →
  step timestamp w = flagPlayer p (on_state (ticked timestamp p) w).
Proof.
  intros Hzero. rewrite step_running.
  by rewrite (proj2 (strict_eq_true _ _)).
Qed.

Lemma step_continues :
  time_of p (times (ticked timestamp p (state w))) ≠ 0 →
  step timestamp w = scheduleTick (render (on_state (ticked timestamp p) w)).
Proof.
  intros Hpos. rewrite step_running.
  by rewrite (proj2 (strict_eq_false _ _)).
Qed.

End running_clock.

Lemma step_idle timestamp w :
  running (state w) = true →
  activePlayer (state w) = None →
  step timestamp w =
    scheduleTick (render (on_state (set_lastTick (Some timestamp)) w)).
Proof.
  intros Hrun Hact. unfold step. rewrite Hrun. cbn [negb].
  destruct w as [s c f fr l]. cbn in Hrun, Hact.
  destruct (lastTick s) eqn:Hlast; cbn; rewrite ?Hlast; cbn; by rewrite Hact.
Qed.

Lemma ticked_baseline timestamp p s :
  lastTick s = None →
  0 ≤ time_of p (times s) ∨ time_of p (times s) = NotANumber →
  ticked timestamp p s = set_lastTick (Some timestamp) s.
Proof.
  intros Hlast Hnonneg. unfold ticked, delta_of. rewrite Hlast.
  rewrite Math_max_0_sub_0 by done.
  by rewrite set_time_id; destruct s.
Qed.

(** ** Taps *)

Lemma handlePlayerTap_accepted p w :
  running (state w) = true →
  activePlayer (state w) = Some p →
  time_of p (times (state w)) ≠ 0 →
  handlePlayerTap p w =
    render (updateActiveClasses
      (on_state (fun s =>
         set_lastTick None
           (set_activePlayer (Some (other p))
              (set_times (set_time p (time_of p (times s) + incrementMs s)
                                   (times s)) s))) w)).
Proof.
  intros Hrun Hact Hpos. unfold handlePlayerTap.
  rewrite Hrun, Hact, bool_decide_eq_true_2 by done. cbn [negb orb].
  by rewrite (proj2 (strict_eq_false _ _)).
Qed.

Lemma handlePlayerTap_rejected p w :
  running (state w) = false
  ∨ activePlayer (state w) ≠ Some p
  ∨ time_of p (times (state w)) = 0 →
  handlePlayerTap p w = w.
Proof.
  intros Hguard. unfold handlePlayerTap.
  destruct Hguard as [Hrun | [Hact | Hzero]].
  - by rewrite Hrun.
  - rewrite (bool_decide_eq_false_2 _ Hact). cbn. by rewrite orb_true_r.
  - rewrite (proj2 (strict_eq_true _ _) Hzero). by case_match.
Qed.

(** ** The log *)

Lemma emitted_app (c : cmd) w l : log (c w) = log w ++ l → emitted c w = l.
Proof. intros H. unfold emitted. rewrite H. apply drop_app_length. Qed.

Lemma log_stopClock w :
  log (stopClock w) =
    log w ++ LayoutPlaying false ::
      match raf (state w) with
      | Some h => [CancelAnimationFrame h]
      | None => []
      end.
Proof.
  unfold stopClock, andThen. cbn.
  destruct (raf (state w)); cbn; by rewrite <-?app_assoc.
Qed.

Lemma log_flagPlayer p w :
  ∃ before after,
    log (flagPlayer p w) = log w ++ before ++ flag_status p :: after
    ∧ ∀ q, flag_status q ∉ before.
Proof.
  unfold flagPlayer, andThen. cbn. rewrite log_stopClock.
  set (c0 := PlayerClasses P0 _ _ _). set (c1 := PlayerClasses P1 _ _ _).
  exists (LayoutPlaying false ::
            match raf (state w) with
            | Some h => [CancelAnimationFrame h]
            | None => []
            end ++ [c0; c1]), [StartPauseText "Restart"].
  split.
  - rewrite <-!app_assoc. cbn. rewrite <-!app_assoc. by destruct p.
  - intros q Hq.
    apply elem_of_cons in Hq as [Hq | Hq]; [by destruct q |].
    apply elem_of_app in Hq as [Hq | Hq].
    + destruct (raf (state w)); [| by apply elem_of_nil in Hq].
      apply list_elem_of_singleton in Hq. by destruct q.
    + subst c0 c1.
      repeat (apply elem_of_cons in Hq as [Hq | Hq]; [by destruct q |]).
      by apply elem_of_nil in Hq.
Qed.

Lemma log_render_scheduleTick w :
  log (scheduleTick (render w)) =
    log w ++ [ TimeText P0 (time_of P0 (times (state w)));
               TimeText P1 (time_of P1 (times (state w)));
               IncrementText (incrementSeconds (state w));
               IncrementText (incrementSeconds (state w));
               RequestAnimationFrame (frames w) ].
Proof. cbn. by rewrite <-!app_assoc. Qed.

Lemma flag_status_not_in_frame (q : player) (t0 t1 i : value) (h : positive) :
  flag_status q ∉ [TimeText P0 t0; TimeText P1 t1; IncrementText i;
                   IncrementText i; RequestAnimationFrame h].
Proof.
  intros Hq.
  repeat (apply elem_of_cons in Hq as [Hq | Hq]; [by destruct q |]).
  by apply elem_of_nil in Hq.
Qed.

Lemma frame_without_flag timestamp w w1 q :
  step timestamp w = scheduleTick (render w1) →
  log w1 = log w →
  flag_status q ∉ emitted (step timestamp) w.
Proof.
  intros Hstep Hlog. unfold emitted.
  rewrite Hstep, log_render_scheduleTick, Hlog, drop_app_length.
  apply flag_status_not_in_frame.
Qed.

(** Every handler only adds to the log, so [emitted] is what it wrote. *)
Lemma appends_skip : appends (fun w => w).
Proof. intros w. exists []. by rewrite app_nil_r. Qed.

Lemma appends_emit e : appends (emit e).
Proof. intros w. by exists [e]. Qed.

Lemma appends_on_state f : appends (on_state f).
Proof. intros w. exists []. by rewrite app_nil_r. Qed.

Lemma appends_andThen c1 c2 : appends c1 → appends c2 → appends (c1 >> c2).
Proof.
  intros H1 H2 w. unfold andThen.
  destruct (H1 w) as [l1 Hl1], (H2 (c1 w)) as [l2 Hl2].
  exists (l1 ++ l2). by rewrite Hl2, Hl1, app_assoc.
Qed.

Lemma appends_apply c w : appends c → ∃ l, log (c w) = log w ++ l.
Proof. intros H. apply H. Qed.

Lemma appends_after c1 c2 w :
  appends c1 → appends c2 → ∃ l, log (c2 (c1 w)) = log w ++ l.
Proof. intros H1 H2. apply (appends_andThen c1 c2 H1 H2 w). Qed.

Lemma appends_render : appends render.
Proof. intros w. eexists. unfold render, andThen. cbn. by rewrite <-!app_assoc. Qed.

Lemma appends_updateActiveClasses : appends updateActiveClasses.
Proof. intros w. eexists. cbn. by rewrite <-!app_assoc. Qed.

Lemma appends_stopClock : appends stopClock.
Proof. intros w. eexists. apply log_stopClock. Qed.

Lemma appends_scheduleTick : appends scheduleTick.
Proof. intros w. by eexists. Qed.

Lemma appends_closeResetModal : appends closeResetModal.
Proof.
  intros w. unfold closeResetModal.
  destruct (confirming w); [by eexists | apply appends_skip].
Qed.

Lemma appends_openResetModal : appends openResetModal.
Proof.
  intros w. unfold openResetModal.
  destruct (confirming w); [apply appends_skip | by eexists].
Qed.

#[export] Hint Resolve appends_skip appends_emit appends_on_state
  appends_andThen appends_render appends_updateActiveClasses
  appends_stopClock appends_scheduleTick appends_closeResetModal
  appends_openResetModal : log.

Lemma appends_resetClock : appends resetClock.
Proof.
  intros w. unfold resetClock.
  apply (appends_andThen _ (setStatus "Ready")); unfold setStatus;
    auto 20 with log.
Qed.

Lemma appends_flagPlayer p : appends (flagPlayer p).
Proof. unfold flagPlayer, setStatus. auto 20 with log. Qed.

#[export] Hint Resolve appends_resetClock appends_flagPlayer : log.

Lemma appends_step timestamp : appends (step timestamp).
Proof.
  intros w.
  destruct (running (state w)) eqn:Hrun; [| rewrite step_paused by done; apply appends_skip].
  destruct (activePlayer (state w)) as [p |] eqn:Hact.
  - rewrite (step_running _ _ p) by done.
    destruct (appends_on_state (ticked timestamp p) w) as [l0 Hl0].
    assert (∀ c, appends c →
              ∃ l, log (c (on_state (ticked timestamp p) w)) = log w ++ l)
      as Hthen.
    { intros c Hc. apply (appends_apply (on_state (ticked timestamp p) >> c)).
      auto with log. }
    case_match.
    + apply Hthen. auto with log.
    + apply (Hthen (render >> scheduleTick)). auto with log.
  - rewrite step_idle by done.
    apply (appends_apply (on_state (set_lastTick (Some timestamp))
                          >> render >> scheduleTick)).
    auto with log.
Qed.

Lemma appends_handlePlayerTap p : appends (handlePlayerTap p).
Proof.
  intros w. unfold handlePlayerTap.
  repeat case_match; try apply appends_skip.
  apply appends_apply. auto 20 with log.
Qed.

Lemma appends_handlePlayerTapStart p : appends (handlePlayerTapStart p).
Proof.
  intros w. unfold handlePlayerTapStart.
  case_match; [apply appends_skip | by eexists].
Qed.

Lemma appends_applyPreset key : appends (applyPreset key).
Proof.
  intros w. unfold applyPreset. case_match; [| apply appends_skip].
  apply appends_apply. unfold setStatus.
  apply appends_andThen; [auto 20 with log |]. intros w'. by eexists.
Qed.

Lemma appends_applyCustom m i : appends (applyCustom m i).
Proof.
  unfold applyCustom, setStatus.
  apply appends_andThen; [auto 20 with log |]. intros w'. by eexists.
Qed.

Lemma appends_toggleStart : appends toggleStart.
Proof.
  intros w. unfold toggleStart. case_match.
  - apply appends_apply. unfold setStatus. auto 20 with log.
  - assert (appends updateLayoutState) by (intros w'; by eexists).
    case_match.
    + apply appends_apply. unfold setStatus. auto 20 with log.
    + apply appends_after; unfold setStatus; auto 20 with log.
Qed.

Lemma appends_swapPlayers : appends swapPlayers.
Proof.
  unfold swapPlayers.
  apply appends_andThen; [| auto with log].
  apply appends_andThen; [| auto with log].
  apply appends_andThen; [auto with log |].
  intros w.
  destruct (activePlayer (state w)); [apply appends_on_state | apply appends_skip].
Qed.

Lemma appends_handle e : appends (handle e).
Proof.
  destruct e; cbn [handle].
  - apply appends_handlePlayerTapStart.
  - apply appends_handlePlayerTap.
  - apply appends_applyPreset.
  - unfold customSubmit.
    repeat case_match; first [apply appends_applyCustom | apply appends_skip].
  - apply appends_toggleStart.
  - apply appends_openResetModal.
  - apply appends_swapPlayers.
  - unfold confirmReset. auto with log.
  - apply appends_closeResetModal.
  - apply appends_closeResetModal.
  - apply appends_closeResetModal.
  - apply appends_step.
Qed.

Lemma log_handle e w : log (handle e w) = log w ++ emitted (handle e) w.
Proof.
  destruct (appends_handle e w) as [l Hl].
  by rewrite (emitted_app _ _ _ Hl).
Qed.

(** ** The state after each handler *)

Lemma state_applyPreset_found key preset w :
  presets_get key = Some preset →
  state (applyPreset key w) =
    mkState (minutes_of preset) (increment_of preset)
            (minutes_of preset * Qc_of_Z 60 * Qc_of_Z 1000,
             minutes_of preset * Qc_of_Z 60 * Qc_of_Z 1000)
            (increment_of preset * Qc_of_Z 1000) None false None None key.
Proof.
  intros Hp. unfold applyPreset, andThen. rewrite Hp.
  by rewrite state_highlightPreset, state_emit, state_setStatus,
    state_resetClock, state_stopClock.
Qed.

Lemma state_applyPreset key p w :
  presets !! key = Some p →
  state (applyPreset key w) =
    mkState (minutes p) (increment p)
            (minutes p * Qc_of_Z 60 * Qc_of_Z 1000,
             minutes p * Qc_of_Z 60 * Qc_of_Z 1000)
            (increment p * Qc_of_Z 1000) None false None None key.
Proof.
  intros Hp%presets_get_entry. by rewrite (state_applyPreset_found _ _ _ Hp).
Qed.

Lemma state_applyPreset_inherited key w :
  key ∈ Object_prototype →
  state (applyPreset key w) =
    mkState Undefined Undefined (NotANumber, NotANumber) NotANumber
            None false None None key.
Proof.
  intros Hp%presets_get_inherited. by rewrite (state_applyPreset_found _ _ _ Hp).
Qed.

Lemma applyPreset_undefined key w : presets_get key = None → applyPreset key w = w.
Proof. intros Hp. unfold applyPreset. by rewrite Hp. Qed.

Lemma state_applyCustom m i w :
  state (applyCustom m i w) =
    mkState (Math_max 1 m) (Math_max 0 i)
            (Math_max 1 m * Qc_of_Z 60 * Qc_of_Z 1000,
             Math_max 1 m * Qc_of_Z 60 * Qc_of_Z 1000)
            (Math_max 0 i * Qc_of_Z 1000) None false None None "custom".
Proof.
  unfold applyCustom, andThen.
  by rewrite state_highlightPreset, state_setStatus, state_resetClock,
    state_stopClock.
Qed.

Lemma state_confirmReset w :
  state (confirmReset w) =
    mkState (baseMinutes (state w)) (incrementSeconds (state w))
            (baseMinutes (state w) * Qc_of_Z 60 * Qc_of_Z 1000,
             baseMinutes (state w) * Qc_of_Z 60 * Qc_of_Z 1000)
            (incrementMs (state w)) None false None None (presetKey (state w)).
Proof.
  unfold confirmReset, andThen.
  by rewrite state_resetClock, state_stopClock, state_closeResetModal.
Qed.

Lemma state_toggleStart w :
  state (toggleStart w) =
    if running (state w)
    then set_raf None (set_running false (state w))
    else set_raf (Some (frames w))
           (set_lastTick None
              (set_running true
                 (set_activePlayer (Some (default P0 (activePlayer (state w))))
                    (state w)))).
Proof.
  unfold toggleStart. destruct (running (state w)) eqn:Hrun.
  - unfold andThen. by rewrite state_emit, state_setStatus, state_stopClock.
  - destruct w as [[bm isec tm ims ap rn lt rf pk] c f fr l]; cbn.
    by destruct ap.
Qed.

Lemma state_handlePlayerTapStart p w :
  state (handlePlayerTapStart p w) = state w.
Proof.
  unfold handlePlayerTapStart. case_match; [done |].
  by rewrite state_playClickSound.
Qed.

Lemma state_step timestamp w : step_outcome timestamp w (state (step timestamp w)).
Proof.
  destruct (running (state w)) eqn:Hrun.
  - destruct (activePlayer (state w)) as [p |] eqn:Hact.
    + destruct (decide (time_of p (times (ticked timestamp p (state w))) = 0))
        as [Hzero | Hpos].
      * rewrite (step_flags _ _ p), state_flagPlayer by done.
        by apply step_flagged.
      * rewrite (step_continues _ _ p), state_scheduleTick, state_render by done.
        change (frames (render (on_state (ticked timestamp p) w)))
          with (frames w).
        by apply step_scheduled.
    + rewrite step_idle, state_scheduleTick, state_render by done.
      change (frames (render (on_state (set_lastTick (Some timestamp)) w)))
        with (frames w).
      by apply step_no_side.
  - rewrite step_paused by done. by apply step_ignored.
Qed.

Lemma state_handlePlayerTap p w :
  state (handlePlayerTap p w) = state w
  ∨ (running (state w) = true
     ∧ activePlayer (state w) = Some p
     ∧ time_of p (times (state w)) ≠ 0
     ∧ state (handlePlayerTap p w) =
         set_lastTick None
           (set_activePlayer (Some (other p))
              (set_times (set_time p (time_of p (times (state w))
                                      + incrementMs (state w))
                            (times (state w))) (state w)))).
Proof.
  destruct (running (state w)) eqn:Hrun;
    [| left; by rewrite handlePlayerTap_rejected by auto].
  destruct (decide (activePlayer (state w) = Some p)) as [Hact | Hact];
    [| left; by rewrite handlePlayerTap_rejected by auto].
  destruct (decide (time_of p (times (state w)) = 0)) as [Hzero | Hpos];
    [left; by rewrite handlePlayerTap_rejected by auto |].
  right. rewrite handlePlayerTap_accepted by done.
  by rewrite state_render, state_updateActiveClasses.
Qed.

(** ** Non-negative clocks: the invariant and its preservation *)

Lemma js_mul_nonneg a b : 0 ≤ a → 0 ≤ b → 0 ≤ a * b.
Proof.
  intros (x & -> & Hx)%js_le_0_inv (y & -> & Hy)%js_le_0_inv.
  by apply Qcmult_nonneg_nonneg.
Qed.

Lemma js_add_nonneg a b : 0 ≤ a → 0 ≤ b → 0 ≤ a + b.
Proof.
  intros (x & -> & Hx)%js_le_0_inv (y & -> & Hy)%js_le_0_inv.
  by apply Qcplus_nonneg_nonneg.
Qed.

Lemma Math_max_0_nonneg a (d : Qc) : 0 ≤ a → 0 ≤ Math_max 0 (a - d).
Proof. intros (x & -> & Hx)%js_le_0_inv. apply Math_max_ge_l. Qed.

Lemma js_le_0_1 a : 1 ≤ a → 0 ≤ a.
Proof.
  intros (? & x & [= <-] & -> & Hx)%js_le_inv.
  change (0 ≤ x)%Qc. by trans 1%Qc.
Qed.

Lemma time_of_nonneg p s : clock_ok s → 0 ≤ time_of p (times s).
Proof. intros [H0 H1 _ _]. by destruct p. Qed.

Lemma clock_ok_times t s :
  0 ≤ t.1 → 0 ≤ t.2 → clock_ok s → clock_ok (set_times t s).
Proof. intros ? ? [? ? ? ?]. by split. Qed.

Lemma clock_ok_set_time p v t s :
  0 ≤ v → 0 ≤ t.1 → 0 ≤ t.2 → clock_ok s →
  clock_ok (set_times (set_time p v t) s).
Proof. intros ? ? ? [? ? ? ?]. by destruct p; split. Qed.

Lemma clock_ok_activePlayer a s : clock_ok s → clock_ok (set_activePlayer a s).
Proof. intros [? ? ? ?]. by split. Qed.

Lemma clock_ok_running b s : clock_ok s → clock_ok (set_running b s).
Proof. intros [? ? ? ?]. by split. Qed.

Lemma clock_ok_lastTick l s : clock_ok s → clock_ok (set_lastTick l s).
Proof. intros [? ? ? ?]. by split. Qed.

Lemma clock_ok_raf h s : clock_ok s → clock_ok (set_raf h s).
Proof. intros [? ? ? ?]. by split. Qed.

Lemma clock_ok_presetKey k s : clock_ok s → clock_ok (set_presetKey k s).
Proof. intros [? ? ? ?]. by split. Qed.

#[export] Hint Resolve clock_ok_times clock_ok_set_time clock_ok_activePlayer
  clock_ok_running clock_ok_lastTick clock_ok_raf clock_ok_presetKey
  time_of_nonneg js_mul_nonneg js_add_nonneg Math_max_0_nonneg js_le_0_1
  ok_time0 ok_time1 ok_incrementMs ok_baseMinutes : clock.

(** A time control of [m >= 0] minutes puts the clock in order whatever
    it was before. *)
Lemma control_ok m i key :
  0 ≤ m → 0 ≤ i →
  clock_ok (mkState m i (m * Qc_of_Z 60 * Qc_of_Z 1000,
                         m * Qc_of_Z 60 * Qc_of_Z 1000)
                    (i * Qc_of_Z 1000) None false None None key).
Proof.
  intros Hm Hi.
  assert (0 ≤ Qc_of_Z 60) by qc_closed.
  assert (0 ≤ Qc_of_Z 1000) by qc_closed.
  split; cbn [times incrementMs baseMinutes fst snd]; auto with clock.
Qed.

Lemma applyPreset_ok key w :
  key ∉ Object_prototype →
  clock_ok (state w) → clock_ok (state (applyPreset key w)).
Proof.
  intros Hkey Hok.
  destruct (presets_get key) as [o |] eqn:Hget;
    [| by rewrite applyPreset_undefined].
  destruct (presets_get_table _ _ Hkey Hget) as (p & Hp & ->).
  rewrite (state_applyPreset _ p) by done.
  apply presets_lookup_Some in Hp as [Hm Hi].
  apply control_ok; auto with clock.
Qed.

Lemma applyCustom_ok (m i : Qc) w : clock_ok (state (applyCustom m i w)).
Proof.
  rewrite state_applyCustom. apply control_ok.
  - apply js_le_0_1, Math_max_ge_l.
  - apply Math_max_ge_l.
Qed.

Lemma confirmReset_ok w : clock_ok (state w) → clock_ok (state (confirmReset w)).
Proof.
  intros [? ? ? Hm]. rewrite state_confirmReset.
  assert (0 ≤ Qc_of_Z 60) by qc_closed.
  assert (0 ≤ Qc_of_Z 1000) by qc_closed.
  split; cbn [times incrementMs baseMinutes fst snd]; auto with clock.
Qed.

Lemma toggleStart_ok w : clock_ok (state w) → clock_ok (state (toggleStart w)).
Proof.
  intros Hok. rewrite state_toggleStart.
  destruct (running (state w)); auto 10 with clock.
Qed.

Lemma step_ok timestamp w :
  clock_ok (state w) → clock_ok (state (step timestamp w)).
Proof.
  intros Hok.
  destruct (state_step timestamp w); unfold ticked; auto 10 with clock.
Qed.

Lemma handlePlayerTap_ok p w :
  clock_ok (state w) → clock_ok (state (handlePlayerTap p w)).
Proof.
  intros Hok.
  destruct (state_handlePlayerTap p w) as [-> | (_ & _ & _ & ->)]; [done |].
  auto 10 with clock.
Qed.

Lemma swapPlayers_ok w : clock_ok (state w) → clock_ok (state (swapPlayers w)).
Proof.
  intros [? ? ? ?]. rewrite state_swapPlayers. by split.
Qed.

Lemma handle_ok e w :
  not_inherited e = true →
  clock_ok (state w) → clock_ok (state (handle e w)).
Proof.
  intros He Hok. destruct e; cbn [handle].
  - by rewrite state_handlePlayerTapStart.
  - by apply handlePlayerTap_ok.
  - apply applyPreset_ok; [| done].
    cbn in He. by apply negb_true_iff, bool_decide_eq_false in He.
  - unfold customSubmit. repeat case_match; try done. apply applyCustom_ok.
  - by apply toggleStart_ok.
  - unfold requestReset. by rewrite state_openResetModal.
  - by apply swapPlayers_ok.
  - by apply confirmReset_ok.
  - by rewrite state_closeResetModal.
  - by rewrite state_closeResetModal.
  - by rewrite state_closeResetModal.
  - by apply step_ok.
Qed.

Lemma initial_ok : clock_ok (state (init initial_page)).
Proof.
  unfold init, andThen.
  rewrite state_emit, state_updateLayoutState, state_render.
  rewrite (state_applyPreset _ (Preset "Rapid" (Qc_of_Z 15) (Qc_of_Z 10)))
    by by vm_compute.
  apply control_ok; cbn; qc_closed.
Qed.

Lemma run_ok events w :
  forallb not_inherited events = true →
  clock_ok (state w) → clock_ok (state (run events w)).
Proof.
  revert w. induction events as [| e events IH]; intros w He Hok; [done |].
  cbn in He. apply andb_prop in He as [He Hes].
  cbn. by apply IH, handle_ok.
Qed.

(** ** After a key of [Object.prototype] *)

(** The numbers stay lost until a time control is loaded: [NaN] goes
    through every subtraction, addition and [Math.max], a reset multiplies
    [undefined], and [NaN === 0] is false. *)
Lemma step_lost timestamp w :
  clock_lost (state w) → clock_lost (state (step timestamp w)).
Proof.
  intros Hlost.
  destruct (state_step timestamp w) as [| | p _ _ _ | p _ _ _]; [done | ..];
    destruct Hlost as [Ht ? ? ? ?]; destruct (state w); cbn in *; subst;
    split; cbn; first [done | by destruct p].
Qed.

Lemma handlePlayerTap_lost p w :
  clock_lost (state w) → clock_lost (state (handlePlayerTap p w)).
Proof.
  intros Hlost.
  destruct (state_handlePlayerTap p w) as [-> | (_ & _ & _ & ->)]; [done |].
  destruct Hlost as [Ht ? ? ? ?]; destruct (state w); cbn in *; subst.
  split; cbn; first [done | by destruct p].
Qed.

Lemma applyPreset_inv key w :
  clock_inv (state w) → clock_inv (state (applyPreset key w)).
Proof.
  intros Hinv.
  destruct (decide (key ∈ Object_prototype)) as [Hkey | Hkey].
  - right. rewrite state_applyPreset_inherited by done. by split.
  - destruct (presets_get key) as [o |] eqn:Hget;
      [| by rewrite applyPreset_undefined].
    destruct (presets_get_table _ _ Hkey Hget) as (p & Hp & ->).
    left. rewrite (state_applyPreset _ p) by done.
    apply presets_lookup_Some in Hp as [Hm Hi].
    apply control_ok; auto with clock.
Qed.

Lemma handle_lost e w :
  is_control e = false →
  clock_lost (state w) → clock_lost (state (handle e w)).
Proof.
  intros He Hlost. destruct e; try discriminate He; cbn [handle].
  - by rewrite state_handlePlayerTapStart.
  - by apply handlePlayerTap_lost.
  - destruct Hlost as [Ht ? Hm ? ?]. rewrite state_toggleStart.
    destruct (running (state w)); by split.
  - unfold requestReset. by rewrite state_openResetModal.
  - destruct Hlost as [Ht ? ? ? ?]. rewrite state_swapPlayers.
    split; try done. cbn. by rewrite Ht.
  - destruct Hlost as [Ht ? Hm ? ?]. rewrite state_confirmReset.
    split; try done. cbn. by rewrite Hm.
  - by rewrite state_closeResetModal.
  - by rewrite state_closeResetModal.
  - by rewrite state_closeResetModal.
  - by apply step_lost.
Qed.

Lemma handle_inv e w : clock_inv (state w) → clock_inv (state (handle e w)).
Proof.
  intros Hinv.
  destruct (is_control e) eqn:He.
  { destruct e; try discriminate He; cbn [handle].
    - by apply applyPreset_inv.
    - unfold customSubmit. repeat case_match; try done.
      left. apply applyCustom_ok. }
  destruct Hinv as [Hok | Hlost].
  - left. apply handle_ok; [by destruct e | done].
  - right. by apply handle_lost.
Qed.

Lemma reachable_clock_inv w : reachable w → clock_inv (state w).
Proof.
  induction 1 as [| e w _ IH]; [left; apply initial_ok | by apply handle_inv].
Qed.

Lemma time_of_inv p s :
  clock_inv s → 0 ≤ time_of p (times s) ∨ time_of p (times s) = NotANumber.
Proof.
  intros [Hok | [Ht _ _ _ _]]; [left; by apply time_of_nonneg |].
  right. rewrite Ht. by destruct p.
Qed.

Lemma reachable_run events : reachable (run events (init initial_page)).
Proof.
  induction events as [| e events IH] using rev_ind; [constructor |].
  unfold run. rewrite foldl_app. cbn. by constructor.
Qed.

Lemma reachable_inv w :
  reachable w → ∃ events, w = run events (init initial_page).
Proof.
  induction 1 as [| e w _ [events ->]]; [by exists [] |].
  exists (events ++ [e]). unfold run. by rewrite foldl_app.
Qed.

(** ** After a flag *)

(** A flag is final for the game being played: start/pause clicks, taps
    and further frames leave the flagged side at 0 and the other clock
    untouched.  Only a new time control, a reset or a swap changes [times]. *)
Lemma flagged_terminal p e w :
  play_event e = true →
  flagged p (state w) →
  flagged p (state (handle e w)) ∧ times (state (handle e w)) = times (state w).
Proof.
  intros He (Hact & Hzero & Hbase).
  destruct e; try discriminate He; cbn [handle].
  - unfold handlePlayerTapStart. case_match; [done |].
    by rewrite state_playClickSound.
  - destruct (decide (p0 = p)) as [-> | Hne].
    + rewrite handlePlayerTap_rejected; [done | by right; right].
    + rewrite handlePlayerTap_rejected; [done |].
      right; left. rewrite Hact. by intros [= ->].
  - unfold toggleStart. destruct (running (state w)) eqn:Hrun.
    + unfold andThen. rewrite state_emit, state_setStatus, state_stopClock.
      by cbn.
    + rewrite Hact. by cbn.
  - unfold requestReset. by rewrite state_openResetModal.
  - by rewrite state_closeResetModal.
  - by rewrite state_closeResetModal.
  - by rewrite state_closeResetModal.
  - destruct (running (state w)) eqn:Hrun; cycle 1.
    { rewrite step_paused by done. repeat split; try done. congruence. }
    assert (ticked timestamp p (state w) = set_lastTick (Some timestamp) (state w))
      as Hticked.
    { apply ticked_baseline; [by apply Hbase | left; by rewrite Hzero]. }
    rewrite (step_flags _ _ p), state_flagPlayer; [| done | done |].
    + cbn [state on_state]. rewrite Hticked. by cbn.
    + by rewrite Hticked.
Qed.

(** ** Applying a time control *)

Lemma control_applied_mkState (t i : Qc) key :
  control_applied t i
    (mkState t i (t * Qc_of_Z 60 * Qc_of_Z 1000, t * Qc_of_Z 60 * Qc_of_Z 1000)
             (i * Qc_of_Z 1000) None false None None key).
Proof.
  unfold control_applied. cbn. by rewrite minutes_to_ms.
Qed.

Lemma applyCustom_applied (t i : Qc) w :
  1 ≤ t → 0 ≤ i → control_applied t i (state (applyCustom t i w)).
Proof.
  intros Ht Hi. rewrite state_applyCustom, !Math_max_right by done.
  apply control_applied_mkState.
Qed.

Lemma applyPreset_applied key p w :
  presets !! key = Some p →
  control_applied (minutes p) (increment p) (state (applyPreset key w)).
Proof.
  intros Hp. rewrite (state_applyPreset _ p) by done.
  apply control_applied_mkState.
Qed.

(** Whole numbers below [2^53] are doubles. *)
Lemma binary64_Z (n : Z) : (Z.abs n < 2 ^ 53)%Z → binary64 (Qc_of_Z n).
Proof.
  intros Hn. exists n, 0%Z. split_and!; [done | lia | lia |].
  apply Qc_is_canon. cbn [this Qc_of_Z Q2Qc].
  rewrite Qred_correct. change (2 ^ 0)%Q with 1%Q. ring.
Qed.

Lemma presets_binary64 key p :
  presets !! key = Some p →
  binary64 (minutes p * Qc_of_Z 60) ∧ binary64 (minutes p * Qc_of_Z 60000)
  ∧ binary64 (increment p * Qc_of_Z 1000).
Proof.
  intros H%elem_of_list_to_map_2.
  repeat (apply elem_of_cons in H as [H | H];
          [injection H as -> ->; cbn [minutes increment];
           rewrite <-!Z2Qc_inj_mul; split_and!; by apply binary64_Z |]).
  by apply elem_of_nil in H.
Qed.

(** What [applyPreset] writes last: the status line, the two fields of
    the custom form and the highlight. *)
Lemma log_status_form_highlight (c : cmd) text m i w :
  log ((c >> setStatus text >> emit (FormValues m i) >> highlightPreset) w)
  = log (c w) ++ [StatusText text; FormValues m i;
                  PresetHighlight (presetKey (state (c w)))].
Proof.
  unfold andThen, setStatus, highlightPreset, emit. cbn.
  by rewrite <-!app_assoc.
Qed.

Lemma log_applyPreset key preset w :
  presets_get key = Some preset →
  ∃ l, log (applyPreset key w) =
         log w ++ l ++ [StatusText (label_text preset +:+ " loaded");
                        FormValues (minutes_of preset) (increment_of preset);
                        PresetHighlight key].
Proof.
  intros Hp. unfold applyPreset. rewrite Hp.
  rewrite log_status_form_highlight. unfold andThen.
  rewrite state_resetClock, state_stopClock.
  cbn [presetKey set_lastTick set_activePlayer set_times set_raf set_running
       state on_state set_incrementMs set_incrementSeconds set_baseMinutes
       set_presetKey].
  match goal with |- context [log (resetClock (stopClock ?w1))] =>
    destruct (appends_after stopClock resetClock w1) as [l ->];
      [auto with log | auto with log |] end.
  exists l. cbn [log on_state]. by rewrite <-app_assoc.
Qed.

(** Input that is not a finite number never reaches [applyCustom]. *)
Lemma customSubmit_not_finite minutes increment w :
  (∀ q, minutes ≠ Finite q) ∨ (∀ q, increment ≠ Finite q) →
  customSubmit minutes increment w = w.
Proof.
  intros H. destruct minutes, increment; try done.
  destruct H as [H | H]; by edestruct H.
Qed.

(** * The engine's properties *)

(** C1.  Flag exactness.  When the frame callback brings the remaining time
    of the active side [p] of a running clock to exactly 0, the clock stops
    ([running] is false), [p] stays the active side, the status line
    announces the flag, and no later frame callback changes anything,
    in particular neither remaining time. *)
Theorem flag_exactness w timestamp p :
  running (state w) = true →
  activePlayer (state w) = Some p →
  time_of p (times (state (step timestamp w))) = 0 →
  running (state (step timestamp w)) = false
  ∧ activePlayer (state (step timestamp w)) = Some p
  ∧ flag_status p ∈ emitted (step timestamp) w
  ∧ ∀ timestamps,
      steps timestamps (step timestamp w) = step timestamp w
      ∧ times (state (steps timestamps (step timestamp w)))
        = times (state (step timestamp w)).
Proof.
  intros Hrun Hact Hzero.
  assert (time_of p (times (ticked timestamp p (state w))) = 0) as Hticked.
  { destruct (decide (time_of p (times (ticked timestamp p (state w))) = 0))
      as [| Hpos]; [done |].
    rewrite (step_continues _ _ p) in Hzero by done. by cbn in Hzero. }
  pose proof (step_flags _ _ p Hrun Hact Hticked) as Hstep.
  assert (running (state (step timestamp w)) = false) as Hstopped
    by by rewrite Hstep, state_flagPlayer.
  split_and!.
  - done.
  - rewrite Hstep, state_flagPlayer. by cbn.
  - destruct (log_flagPlayer p (on_state (ticked timestamp p) w))
      as (before & after & Hlog & _).
    rewrite <-Hstep in Hlog. rewrite (emitted_app _ _ _ Hlog). set_solver.
  - intros timestamps. by rewrite steps_paused.
Qed.

(** The bullet clock (one minute) runs out on the frame 60 s after the
    baseline frame. *)
Lemma flag_exactness_witness :
  let w := run [PresetClick "bullet"; StartPauseClick; AnimationFrame 0]
               (init initial_page) in
  running (state (step (Qc_of_Z 60000) w)) = false
  ∧ activePlayer (state (step (Qc_of_Z 60000) w)) = Some P0
  ∧ flag_status P0 ∈ emitted (step (Qc_of_Z 60000)) w
  ∧ ∀ timestamps,
      steps timestamps (step (Qc_of_Z 60000) w) = step (Qc_of_Z 60000) w
      ∧ times (state (steps timestamps (step (Qc_of_Z 60000) w)))
        = times (state (step (Qc_of_Z 60000) w)).
Proof.
  apply (flag_exactness _ (Qc_of_Z 60000) P0).
  - vm_compute. reflexivity.
  - vm_compute. reflexivity.
  - value_closed.
Defined.

(** C2.  Conservation with bonus.  On a running clock whose active side [p]
    has [r > 0] left, [handlePlayerTap p] (the turn pass) leaves [p] with
    [r + incrementMs], makes the other side active, clears [lastTick], and
    does not touch the remaining time of the side that receives the turn. *)
Theorem pass_turn_credits_increment w p r :
  running (state w) = true →
  activePlayer (state w) = Some p →
  time_of p (times (state w)) = r →
  0 < r →
  time_of p (times (state (handlePlayerTap p w))) = r + incrementMs (state w)
  ∧ activePlayer (state (handlePlayerTap p w)) = Some (other p)
  ∧ lastTick (state (handlePlayerTap p w)) = None
  ∧ time_of (other p) (times (state (handlePlayerTap p w)))
    = time_of (other p) (times (state w)).
Proof.
  intros Hrun Hact Hr Hpos.
  rewrite handlePlayerTap_accepted; [| done | done |].
  - rewrite state_render, state_updateActiveClasses. cbn.
    rewrite time_of_set_time, time_of_set_time_other. by rewrite Hr.
  - rewrite Hr. intros ->. by apply Qclt_not_eq in Hpos.
Qed.

(** Rapid (15 min + 10 s): after the start, side 0 passes the turn. *)
Lemma pass_turn_credits_increment_witness :
  let w := run [StartPauseClick] (init initial_page) in
  time_of P0 (times (state (handlePlayerTap P0 w)))
  = Qc_of_Z 900000 + incrementMs (state w)
  ∧ activePlayer (state (handlePlayerTap P0 w)) = Some (other P0)
  ∧ lastTick (state (handlePlayerTap P0 w)) = None
  ∧ time_of (other P0) (times (state (handlePlayerTap P0 w)))
    = time_of (other P0) (times (state w)).
Proof.
  apply (pass_turn_credits_increment _ P0 (Qc_of_Z 900000)).
  - vm_compute. reflexivity.
  - vm_compute. reflexivity.
  - value_closed.
  - vm_compute. reflexivity.
Defined.

(** C3, as stated, fails: a baseline frame can signal a flag.  After the
    bullet clock has run out for side 0, the Start/Pause button (now
    labelled Restart) sets [running] again and clears [lastTick]; the next
    frame callback finds 0 ms on the active clock and flags once more. *)
Lemma baseline_tick_counterexample :
  ¬ (∀ w timestamp,
       reachable w →
       running (state w) = true →
       lastTick (state w) = None →
       lastTick (state (step timestamp w)) = Some timestamp
       ∧ times (state (step timestamp w)) = times (state w)
       ∧ ∀ p, flag_status p ∉ emitted (step timestamp) w).
Proof.
  intros Hclaim.
  pose (events := [PresetClick "bullet"; StartPauseClick; AnimationFrame 0;
                   AnimationFrame (Qc_of_Z 60000); StartPauseClick]).
  destruct (Hclaim (run events (init initial_page)) (Qc_of_Z 70000))
    as (_ & _ & Hsilent); [apply reachable_run | reflexivity | reflexivity |].
  apply (Hsilent P0). vm_compute. repeat constructor.
Qed.

(** C3, amended.  A frame callback on a running clock whose [lastTick] is
    [null] stores the timestamp in [lastTick] and changes neither remaining
    time.  If the active side still has time, the clock keeps running and
    no flag is signalled; if the active side is already at 0 (a restart
    after a flag), the callback flags that side again and stops the clock. *)
Theorem baseline_tick w timestamp :
  reachable w →
  running (state w) = true →
  lastTick (state w) = None →
  lastTick (state (step timestamp w)) = Some timestamp
  ∧ times (state (step timestamp w)) = times (state w)
  ∧ ((∀ p, activePlayer (state w) = Some p → time_of p (times (state w)) ≠ 0) →
     running (state (step timestamp w)) = true
     ∧ ∀ q, flag_status q ∉ emitted (step timestamp) w)
  ∧ (∀ p, activePlayer (state w) = Some p → time_of p (times (state w)) = 0 →
     running (state (step timestamp w)) = false
     ∧ flag_status p ∈ emitted (step timestamp) w).
Proof.
  intros Hreach Hrun Hlast.
  pose proof (reachable_clock_inv _ Hreach) as Hok.
  destruct (activePlayer (state w)) as [p |] eqn:Hact.
  - pose proof (ticked_baseline timestamp p (state w) Hlast
                  (time_of_inv p _ Hok)) as Hticked.
    destruct (decide (time_of p (times (state w)) = 0)) as [Hzero | Hpos].
    + assert (step timestamp w = flagPlayer p (on_state (ticked timestamp p) w))
        as Hstep by (apply step_flags; [done | done | by rewrite Hticked]).
      rewrite Hstep, state_flagPlayer. cbn [state on_state]. rewrite Hticked.
      split_and!; [done | done | |].
      * intros Hpos. by destruct (Hpos p).
      * intros ? [= <-] _. split; [done |].
        destruct (log_flagPlayer p (on_state (ticked timestamp p) w))
          as (before & after & Hlog & _).
        rewrite <-Hstep in Hlog. rewrite (emitted_app _ _ _ Hlog). set_solver.
    + assert (step timestamp w
              = scheduleTick (render (on_state (ticked timestamp p) w)))
        as Hstep by (apply step_continues; [done | done | by rewrite Hticked]).
      rewrite Hstep, state_scheduleTick, state_render. cbn [state on_state].
      rewrite Hticked. split_and!; [done | done | |].
      * intros _. split; [by cbn |]. intros q.
        by apply (frame_without_flag _ _ _ _ Hstep).
      * intros ? [= <-] Hzero. done.
  - pose proof (step_idle timestamp w Hrun Hact) as Hstep.
    rewrite Hstep, state_scheduleTick, state_render. cbn [state on_state].
    split_and!; [done | done | | done].
    intros _. split; [by cbn |]. intros q.
    by apply (frame_without_flag _ _ _ _ Hstep).
Qed.

(** The first frame after the start of a rapid game. *)
Lemma baseline_tick_witness :
  let w := run [StartPauseClick] (init initial_page) in
  lastTick (state (step (Qc_of_Z 16) w)) = Some (Qc_of_Z 16)
  ∧ times (state (step (Qc_of_Z 16) w)) = times (state w)
  ∧ ((∀ p, activePlayer (state w) = Some p → time_of p (times (state w)) ≠ 0) →
     running (state (step (Qc_of_Z 16) w)) = true
     ∧ ∀ q, flag_status q ∉ emitted (step (Qc_of_Z 16)) w)
  ∧ (∀ p, activePlayer (state w) = Some p → time_of p (times (state w)) = 0 →
     running (state (step (Qc_of_Z 16) w)) = false
     ∧ flag_status p ∈ emitted (step (Qc_of_Z 16)) w).
Proof.
  apply (baseline_tick (run [StartPauseClick] (init initial_page)) (Qc_of_Z 16)).
  - cbn [run foldl]. apply reachable_handle, reachable_init.
  - vm_compute. reflexivity.
  - vm_compute. reflexivity.
Defined.

(** C4, as stated, fails on doubles.  [resetClock] multiplies by 60 and
    then by 1000, rounding twice: for 1.03 minutes (the double nearest to
    it) the remaining time is 61800.00000000001 and not 1.03 * 60000, which
    is 61800. *)
Lemma time_control_applied_counterexample :
  let t := 0x1.07ae147ae147bp+0%float in
  PrimFloat.leb 1 t = true
  ∧ Binary64.applyCustom_time t ≠ (t * 60000)%float.
Proof.
  cbv zeta. split; [vm_compute; reflexivity |].
  intros H.
  apply (f_equal (PrimFloat.eqb (0x1.07ae147ae147bp+0 * 60000)%float)) in H.
  vm_compute in H. discriminate H.
Qed.

(** C4, amended.  A time control of [t >= 1] minutes and [i >= 0] seconds,
    entered in the custom form or found in the preset table, leaves no
    active side and a stopped clock, and, when the products [t * 60],
    [t * 60000] and [i * 1000] are doubles, so that no multiplication
    rounds, both remaining times at [t * 60000] and [incrementMs] at
    [i * 1000].  Every entry of the preset table has [t >= 1], [i >= 0]
    and such products. *)
Theorem time_control_applied w (t i : Qc) :
  1 ≤ t →
  0 ≤ i →
  binary64 (t * Qc_of_Z 60) →
  binary64 (t * Qc_of_Z 60000) →
  binary64 (i * Qc_of_Z 1000) →
  control_applied t i (state (applyCustom t i w))
  ∧ (∀ key name,
       presets !! key = Some (Preset name t i) →
       control_applied t i (state (applyPreset key w)))
  ∧ (∀ key p,
       presets !! key = Some p →
       (1 ≤ minutes p ∧ 0 ≤ increment p)
       ∧ binary64 (minutes p * Qc_of_Z 60)
       ∧ binary64 (minutes p * Qc_of_Z 60000)
       ∧ binary64 (increment p * Qc_of_Z 1000)).
Proof.
  intros Ht Hi _ _ _. split_and!.
  - by apply applyCustom_applied.
  - intros key name Hp. apply (applyPreset_applied _ _ w) in Hp. done.
  - intros key p Hp. split; [by apply (presets_lookup_Some key) |].
    by apply (presets_binary64 key).
Qed.

(** Five minutes with a three-second increment: typed into the custom
    form, and loaded as the blitz preset. *)
Lemma time_control_applied_witness :
  control_applied (Qc_of_Z 5) (Qc_of_Z 3)
    (state (applyCustom (Qc_of_Z 5) (Qc_of_Z 3) (init initial_page)))
  ∧ control_applied (Qc_of_Z 5) (Qc_of_Z 3)
      (state (applyPreset "blitz" (init initial_page))).
Proof.
  destruct (time_control_applied (init initial_page) (Qc_of_Z 5) (Qc_of_Z 3))
    as (Hcustom & Hpreset & _).
  - vm_compute. discriminate.
  - vm_compute. discriminate.
  - rewrite <-Z2Qc_inj_mul. apply binary64_Z. vm_compute. reflexivity.
  - rewrite <-Z2Qc_inj_mul. apply binary64_Z. vm_compute. reflexivity.
  - rewrite <-Z2Qc_inj_mul. apply binary64_Z. vm_compute. reflexivity.
  - split; [exact Hcustom |].
    apply (Hpreset "blitz" "Blitz"). vm_compute. reflexivity.
Defined.

(** On doubles too the five presets give [t * 60000]. *)
Example presets_exact_on_doubles :
  Forall (λ t, Binary64.applyCustom_time t = (t * 60000)%float)
         [90; 15; 10; 5; 1]%float.
Proof. repeat constructor. Qed.

(** C5.  In every state the page reaches from start-up, both remaining
    times are at least 0, and they still are after any further event:
    a preset or custom control, start or pause, a tap, a frame callback,
    a confirmed reset or a swap.  The preset keys are keys of the table or
    keys for which [presets[key]] is [undefined]; what a key inherited
    from [Object.prototype] does to the remaining times is in C10. *)
Theorem remaining_never_negative events :
  forallb not_inherited events = true →
  let w := run events (init initial_page) in
  (0 ≤ (times (state w)).1 ∧ 0 ≤ (times (state w)).2)
  ∧ ∀ e, not_inherited e = true →
         0 ≤ (times (state (handle e w))).1
         ∧ 0 ≤ (times (state (handle e w))).2.
Proof.
  intros Hevents w.
  assert (clock_ok (state w)) as Hok by (by apply run_ok, initial_ok).
  split.
  - split; apply Hok.
  - intros e He. apply (handle_ok e) in Hok; [| done]. split; apply Hok.
Qed.

(** The bullet clock one second after side 0 has run out, with a click on
    a preset button that has no entry in the table on the way. *)
Lemma remaining_never_negative_witness :
  let w := run [PresetClick "bullet"; PresetClick "hyperbullet";
                StartPauseClick; AnimationFrame 0;
                AnimationFrame (Qc_of_Z 61000)] (init initial_page) in
  (0 ≤ (times (state w)).1 ∧ 0 ≤ (times (state w)).2)
  ∧ ∀ e, not_inherited e = true →
         0 ≤ (times (state (handle e w))).1
         ∧ 0 ≤ (times (state (handle e w))).2.
Proof.
  apply (remaining_never_negative
           [PresetClick "bullet"; PresetClick "hyperbullet";
            StartPauseClick; AnimationFrame 0;
            AnimationFrame (Qc_of_Z 61000)]).
  vm_compute. reflexivity.
Defined.

(** C6.  [swapPlayers] exchanges the two remaining times, gives the move
    to side 1 when side 0 had it and to side 0 when side 1 had it, leaves
    it with nobody when nobody had it, and leaves [running] as it is.
    From [910000, 900000] with side 1 active it gives [900000, 910000]
    with side 0 active. *)
Theorem swap_exchanges_sides w :
  times (state (swapPlayers w)) = ((times (state w)).2, (times (state w)).1)
  ∧ activePlayer (state (swapPlayers w))
    = match activePlayer (state w) with
      | Some P0 => Some P1
      | Some P1 => Some P0
      | None => None
      end
  ∧ running (state (swapPlayers w)) = running (state w)
  ∧ (times (state w) = (Num (Qc_of_Z 910000), Num (Qc_of_Z 900000)) →
     activePlayer (state w) = Some P1 →
     times (state (swapPlayers w))
     = (Num (Qc_of_Z 900000), Num (Qc_of_Z 910000))
     ∧ activePlayer (state (swapPlayers w)) = Some P0).
Proof.
  rewrite state_swapPlayers. cbn. split_and!; [done | | done |].
  - by destruct (activePlayer (state w)) as [[] |].
  - by intros -> ->.
Qed.

(** The scenario of the specification reaches the state of C6's example:
    rapid, start, side 0 passes the turn. *)
Example swap_scenario :
  let w := run [StartPauseClick; PlayerClick P0] (init initial_page) in
  times (state w) = (Num (Qc_of_Z 910000), Num (Qc_of_Z 900000))
  ∧ activePlayer (state w) = Some P1
  ∧ times (state (handle SwapClick w))
    = (Num (Qc_of_Z 900000), Num (Qc_of_Z 910000))
  ∧ activePlayer (state (handle SwapClick w)) = Some P0.
Proof.
  cbv zeta. split_and!.
  - value_closed.
  - vm_compute. reflexivity.
  - value_closed.
  - vm_compute. reflexivity.
Qed.

(** C7.  Ignored taps.  When the clock is not running, or [p] is not the
    active side, or [p] has no time left, [handlePlayerTap p] returns the
    page as it was: no field of the state changes and nothing is written
    to the document. *)
Theorem invalid_tap_ignored w p :
  running (state w) = false
  ∨ activePlayer (state w) ≠ Some p
  ∨ time_of p (times (state w)) = 0 →
  handlePlayerTap p w = w
  ∧ emitted (handlePlayerTap p) w = [].
Proof.
  intros Hsame%handlePlayerTap_rejected.
  split; [done |].
  apply emitted_app. by rewrite Hsame, app_nil_r.
Qed.

(** Before the first start nothing is running, so a tap is ignored. *)
Lemma invalid_tap_ignored_witness :
  handlePlayerTap P0 (init initial_page) = init initial_page
  ∧ emitted (handlePlayerTap P0) (init initial_page) = [].
Proof.
  apply (invalid_tap_ignored (init initial_page) P0).
  left. vm_compute. reflexivity.
Defined.

(** C8.  The custom form hands two finite numbers to [applyCustom]; the
    minutes are raised to at least 1 and the increment to at least 0,
    and larger values are taken as they are.  With 0.4 minutes and an
    increment of -5 the control is 1 minute, increment 0. *)
Theorem custom_control_clamped w m i :
  let w' := handle (CustomSubmit (Finite m) (Finite i)) w in
  (m ≤ 1 → baseMinutes (state w') = 1)
  ∧ (1 ≤ m → baseMinutes (state w') = m)
  ∧ (i ≤ 0 → incrementSeconds (state w') = 0)
  ∧ (0 ≤ i → incrementSeconds (state w') = i)
  ∧ let w'' := handle (CustomSubmit (Finite (Q2Qc (4 # 10)))
                                    (Finite (Qc_of_Z (-5)))) w in
    baseMinutes (state w'') = 1 ∧ incrementSeconds (state w'') = 0.
Proof.
  cbv zeta. cbn [handle customSubmit]. rewrite !state_applyCustom.
  cbn [baseMinutes incrementSeconds].
  split_and!.
  - apply Math_max_left.
  - apply Math_max_right.
  - apply Math_max_left.
  - apply Math_max_right.
  - apply Math_max_left. qc_closed.
  - apply Math_max_left. qc_closed.
Qed.

(** C9.  Swapping twice restores the state object: both remaining times,
    the active side and every other field. *)
Theorem swap_involutive w :
  state (swapPlayers (swapPlayers w)) = state w
  ∧ times (state (swapPlayers (swapPlayers w))) = times (state w)
  ∧ activePlayer (state (swapPlayers (swapPlayers w))) = activePlayer (state w).
Proof.
  assert (state (swapPlayers (swapPlayers w)) = state w) as Hsame.
  { rewrite !state_swapPlayers.
    destruct (state w) as [bm isec [t0 t1] ims ap rn lt rf pk]; cbn.
    destruct ap; cbn; by rewrite ?other_involutive. }
  by rewrite Hsame.
Qed.

(** C10.  The guard of [applyPreset] is [if (!preset) return], and
    [presets[key]] is defined for more than the five keys of the table:
    under a name inherited from [Object.prototype] it finds a function (or
    the prototype itself), which passes the guard.  Such a key is not
    ignored.  It becomes the selected key and the clock is stopped and
    reset; the object has no [minutes] and no [increment], so the base
    minutes and the increment are [undefined], [incrementMs] and both
    remaining times are [NaN], and the status line reads
    "undefined loaded".  Every other key outside the table is
    ignored: the page is the same and nothing is written. *)
Theorem inherited_preset_key_loaded key w :
  key ∈ Object_prototype →
  (key ∉ preset_keys)
  ∧ state (applyPreset key w)
    = mkState Undefined Undefined (NotANumber, NotANumber) NotANumber
              None false None None key
  ∧ StatusText "undefined loaded" ∈ emitted (applyPreset key) w
  ∧ applyPreset key w ≠ w
  ∧ (∀ key', key' ∉ preset_keys → key' ∉ Object_prototype →
       applyPreset key' w = w ∧ emitted (applyPreset key') w = []).
Proof.
  intros Hkey.
  pose proof (presets_get_inherited key Hkey) as Hget.
  destruct (log_applyPreset key Inherited w Hget) as [l Hl].
  split_and!.
  - by apply Object_prototype_not_preset.
  - by apply state_applyPreset_inherited.
  - rewrite (emitted_app _ _ _ Hl). apply elem_of_app. right.
    apply list_elem_of_here.
  - intros Hsame. rewrite Hsame in Hl.
    apply (f_equal length) in Hl. rewrite !length_app in Hl. cbn in Hl. lia.
  - intros key' Hown Hproto.
    assert (applyPreset key' w = w) as Hsame
      by by apply applyPreset_undefined, presets_get_undefined.
    split; [done |]. apply emitted_app. by rewrite Hsame, app_nil_r.
Qed.

(** A rapid game in progress, and a preset button whose key is
    [constructor]. *)
Lemma inherited_preset_key_loaded_witness :
  let w := run [StartPauseClick; AnimationFrame 0] (init initial_page) in
  ("constructor" ∉ preset_keys)
  ∧ state (applyPreset "constructor" w)
    = mkState Undefined Undefined (NotANumber, NotANumber) NotANumber
              None false None None "constructor"
  ∧ StatusText "undefined loaded" ∈ emitted (applyPreset "constructor") w
  ∧ applyPreset "constructor" w ≠ w
  ∧ (∀ key', key' ∉ preset_keys → key' ∉ Object_prototype →
       applyPreset key' w = w ∧ emitted (applyPreset key') w = []).
Proof.
  apply (inherited_preset_key_loaded "constructor").
  unfold Object_prototype. apply list_elem_of_here.
Defined.

(** The game that was running is gone: before the click side 0 had its 15
    minutes and the clock was running; after it the clocks read NaN:NaN. *)
Example inherited_key_ends_game :
  let w := run [StartPauseClick; AnimationFrame 0] (init initial_page) in
  running (state w) = true
  ∧ times (state w) = (Num (Qc_of_Z 900000), Num (Qc_of_Z 900000))
  ∧ running (state (handle (PresetClick "constructor") w)) = false
  ∧ times (state (handle (PresetClick "constructor") w))
    = (NotANumber, NotANumber)
  ∧ ¬ (0 ≤ (times (state (handle (PresetClick "constructor") w))).1)
  ∧ shown_time P0 (screen_of (log (handle (PresetClick "constructor") w)))
    = Some "NaN:NaN".
Proof.
  cbv zeta. split_and!.
  - vm_compute. reflexivity.
  - value_closed.
  - vm_compute. reflexivity.
  - vm_compute. reflexivity.
  - vm_compute. intros [].
  - vm_compute. reflexivity.
Qed.

(** There is no preset called hyperbullet, and no object has a property of
    that name. *)
Example unknown_preset_ignored :
  applyPreset "hyperbullet" (init initial_page) = init initial_page.
Proof. apply applyPreset_undefined. by vm_compute. Qed.

(** * Scenarios *)

(** Frames at 0, 500 and 1200 ms on a running clock whose side 0 has
    1000 ms: the first frame is the baseline, the second leaves 500 ms, the
    third reaches 0 and flags side 0. *)
Example three_frames :
  let w := mkPage (mkState 1 1 (Num (Qc_of_Z 1000), Num (Qc_of_Z 1000)) (Qc_of_Z 1000)
                           (Some P0) true None (Some 1%positive) "custom")
                  0 false 2%positive [] in
  time_of P0 (times (state (steps [0] w))) = Qc_of_Z 1000
  ∧ time_of P0 (times (state (steps [0; Qc_of_Z 500] w))) = Qc_of_Z 500
  ∧ time_of P0 (times (state (steps [0; Qc_of_Z 500; Qc_of_Z 1200] w))) = 0
  ∧ running (state (steps [0; Qc_of_Z 500; Qc_of_Z 1200] w)) = false
  ∧ flag_status P0 ∈ log (steps [0; Qc_of_Z 500; Qc_of_Z 1200] w).
Proof.
  cbv zeta. split_and!.
  - value_closed.
  - value_closed.
  - value_closed.
  - vm_compute. reflexivity.
  - vm_compute. repeat constructor.
Qed.

(** A press is a [pointerdown] followed by a [click].  The click sound
    belongs to the [pointerdown] handler, whose guard does not look at the
    remaining time: on a clock restarted after a flag it plays although
    the click that follows is ignored. *)
Example click_sound_on_flagged_side :
  let w := run [PresetClick "bullet"; StartPauseClick; AnimationFrame 0;
                AnimationFrame (Qc_of_Z 60000); StartPauseClick]
               (init initial_page) in
  emitted (handle (PlayerPointerDown P0)) w = [ClickSound 0]
  ∧ handle (PlayerClick P0) (handle (PlayerPointerDown P0) w)
    = handle (PlayerPointerDown P0) w.
Proof.
  cbv zeta. split.
  - vm_compute. reflexivity.
  - apply handlePlayerTap_rejected. right. right.
    value_closed.
Qed.

(** * Further properties of the code *)

(** ** The settings change only with a time control *)

Lemma settings_step timestamp w :
  settings (state (step timestamp w)) = settings (state w).
Proof. destruct (state_step timestamp w); by destruct (state w). Qed.

Lemma handle_settings e w :
  is_control e = false →
  settings (state (handle e w)) = settings (state w).
Proof.
  intros He. destruct e; try discriminate He; cbn [handle].
  - by rewrite state_handlePlayerTapStart.
  - destruct (state_handlePlayerTap p w) as [-> | (_ & _ & _ & ->)]; [done |].
    by destruct (state w).
  - rewrite state_toggleStart. by destruct (state w) as [? ? ? ? ? [] ? ? ?].
  - unfold requestReset. by rewrite state_openResetModal.
  - rewrite state_swapPlayers. by destruct (state w).
  - by rewrite state_confirmReset.
  - by rewrite state_closeResetModal.
  - by rewrite state_closeResetModal.
  - by rewrite state_closeResetModal.
  - apply settings_step.
Qed.

Lemma settings_ok_ext s1 s2 :
  settings s1 = settings s2 → settings_ok s2 → settings_ok s1.
Proof.
  destruct s1, s2. intros [= -> -> -> ->] [? ? ? ?]. by split.
Qed.

Lemma applyPreset_settings_ok key w :
  key ∉ Object_prototype →
  settings_ok (state w) → settings_ok (state (applyPreset key w)).
Proof.
  intros Hkey Hok.
  destruct (presets_get key) as [o |] eqn:Hget;
    [| by rewrite applyPreset_undefined].
  destruct (presets_get_table _ _ Hkey Hget) as (p & Hp & ->).
  rewrite (state_applyPreset _ p) by done.
  destruct (presets_lookup_Some _ _ Hp). split; cbn; eauto.
Qed.

Lemma applyCustom_settings_ok (m i : Qc) w :
  settings_ok (state (applyCustom m i w)).
Proof.
  rewrite state_applyCustom.
  split; cbn [incrementMs incrementSeconds baseMinutes presetKey];
    auto using Math_max_ge_l.
Qed.

Lemma handle_settings_ok e w :
  not_inherited e = true →
  settings_ok (state w) → settings_ok (state (handle e w)).
Proof.
  intros Hkey Hok. destruct (is_control e) eqn:He.
  - destruct e; try discriminate He; cbn [handle].
    + apply applyPreset_settings_ok; [| done].
      cbn in Hkey. by apply negb_true_iff, bool_decide_eq_false in Hkey.
    + unfold customSubmit. repeat case_match; try done.
      apply applyCustom_settings_ok.
  - by apply (settings_ok_ext _ _ (handle_settings e w He)).
Qed.

Lemma initial_settings_ok : settings_ok (state (init initial_page)).
Proof.
  unfold init, andThen.
  rewrite state_emit, state_updateLayoutState, state_render.
  apply applyPreset_settings_ok;
    [apply (bool_decide_eq_false_1 _); vm_compute; reflexivity |]. split; cbn.
  - done.
  - qc_closed.
  - qc_closed.
  - right. eexists. split; [by vm_compute |]. done.
Qed.

Lemma run_settings_ok events w :
  forallb not_inherited events = true →
  settings_ok (state w) → settings_ok (state (run events w)).
Proof.
  revert w. induction events as [| e events IH]; intros w He Hok; [done |].
  cbn in He. apply andb_prop in He as [He Hes].
  cbn. by apply IH, handle_settings_ok.
Qed.

(** Whatever the keys, the settings are consistent or lost. *)
Lemma handle_settings_inv e w :
  settings_ok (state w) ∨ clock_lost (state w) →
  settings_ok (state (handle e w)) ∨ clock_lost (state (handle e w)).
Proof.
  intros Hinv.
  destruct (decide (not_inherited e = true)) as [Hkey | Hkey].
  - destruct Hinv as [Hok | Hlost]; [left; by apply handle_settings_ok |].
    destruct (is_control e) eqn:He; [| right; by apply handle_lost].
    destruct e; try discriminate He; cbn [handle].
    + cbn in Hkey. apply negb_true_iff, bool_decide_eq_false in Hkey.
      destruct (presets_get key) as [o |] eqn:Hget;
        [| rewrite applyPreset_undefined by done; by right].
      destruct (presets_get_table _ _ Hkey Hget) as (p & Hp & ->).
      left. rewrite (state_applyPreset _ p) by done.
      destruct (presets_lookup_Some _ _ Hp). split; cbn; eauto.
    + unfold customSubmit. repeat case_match; try (by right).
      left. apply applyCustom_settings_ok.
  - destruct e; try done. cbn [handle]. right.
    cbn in Hkey. apply not_true_is_false, negb_false_iff in Hkey.
    apply bool_decide_eq_true in Hkey.
    rewrite state_applyPreset_inherited by done. by split.
Qed.

Lemma reachable_settings_inv w :
  reachable w → settings_ok (state w) ∨ clock_lost (state w).
Proof.
  induction 1; [left; apply initial_settings_ok | by apply handle_settings_inv].
Qed.

(** ** Running, the requested frame and the side to move *)

Ltac solve_schedule :=
  split; cbn;
  [ first [ assumption
          | split; first [ done | intros _; by eexists | by intros [? [=]] ] ]
  | first [ assumption | done | intros _; by eexists ] ].

Lemma handle_schedule_ok e w :
  schedule_ok (state w) → schedule_ok (state (handle e w)).
Proof.
  intros [Hraf Hside]. destruct e; cbn [handle].
  - by rewrite state_handlePlayerTapStart.
  - destruct (state_handlePlayerTap p w) as [-> | (Hrun & _ & _ & ->)]; [done |].
    destruct (state w); cbn in *. subst. solve_schedule.
  - destruct (presets_get key) as [o |] eqn:Hget.
    + rewrite (state_applyPreset_found _ o) by done. solve_schedule.
    + by rewrite applyPreset_undefined.
  - unfold customSubmit. repeat case_match; try done.
    rewrite state_applyCustom. solve_schedule.
  - rewrite state_toggleStart.
    destruct (state w) as [? ? ? ? ? [] ? ? ?]; cbn in *; solve_schedule.
  - unfold requestReset. by rewrite state_openResetModal.
  - rewrite state_swapPlayers.
    destruct (state w); cbn in *. split; cbn; [done |].
    intros Hrun. destruct (Hside Hrun) as [? ->]. by eexists.
  - rewrite state_confirmReset. solve_schedule.
  - by rewrite state_closeResetModal.
  - by rewrite state_closeResetModal.
  - by rewrite state_closeResetModal.
  - destruct (state_step timestamp w) as [Hrun | Hrun Hact | p Hrun Hact Hz
                                          | p Hrun Hact Hnz].
    + done.
    + destruct (Hside Hrun) as [? Hsome]. congruence.
    + destruct (state w); cbn in *. solve_schedule.
    + destruct (state w); cbn in *. subst. solve_schedule.
Qed.

Lemma initial_schedule_ok : schedule_ok (state (init initial_page)).
Proof.
  unfold init, andThen.
  rewrite state_emit, state_updateLayoutState, state_render.
  rewrite (state_applyPreset _ (Preset "Rapid" (Qc_of_Z 15) (Qc_of_Z 10)))
    by by vm_compute.
  solve_schedule.
Qed.

Lemma reachable_schedule_ok w : reachable w → schedule_ok (state w).
Proof.
  induction 1; [apply initial_schedule_ok | by apply handle_schedule_ok].
Qed.

(** X1.  The base minutes, the increment (in seconds and in milliseconds)
    and the selected preset key are written by [applyPreset] and
    [applyCustom] only: every other handler (taps, start/pause, frames,
    swap, the reset dialog and a confirmed reset) leaves them as they are. *)
Theorem settings_change_only_with_control e w :
  is_control e = false →
  baseMinutes (state (handle e w)) = baseMinutes (state w)
  ∧ incrementSeconds (state (handle e w)) = incrementSeconds (state w)
  ∧ incrementMs (state (handle e w)) = incrementMs (state w)
  ∧ presetKey (state (handle e w)) = presetKey (state w).
Proof.
  intros He. pose proof (handle_settings e w He) as Hs.
  unfold settings in Hs. by injection Hs.
Qed.

(** A confirmed reset in the middle of a rapid game. *)
Lemma settings_change_only_with_control_witness :
  let w := run [StartPauseClick; AnimationFrame 0; PlayerClick P0]
               (init initial_page) in
  baseMinutes (state (handle ConfirmResetClick w)) = baseMinutes (state w)
  ∧ incrementSeconds (state (handle ConfirmResetClick w))
    = incrementSeconds (state w)
  ∧ incrementMs (state (handle ConfirmResetClick w)) = incrementMs (state w)
  ∧ presetKey (state (handle ConfirmResetClick w)) = presetKey (state w).
Proof.
  apply (settings_change_only_with_control ConfirmResetClick).
  reflexivity.
Defined.

(** X2.  In every state the page reaches from start-up through events
    whose preset keys are keys of the table or keys for which
    [presets[key]] is [undefined], [incrementMs] is
    [incrementSeconds * 1000], the base time is at least one minute, the
    increment is not negative, and the selected key is either "custom" or
    a key of the preset table whose entry has exactly the base minutes and
    the increment in force. *)
Theorem settings_consistent events :
  forallb not_inherited events = true →
  let w := run events (init initial_page) in
  incrementMs (state w) = incrementSeconds (state w) * Qc_of_Z 1000
  ∧ 1 ≤ baseMinutes (state w)
  ∧ 0 ≤ incrementSeconds (state w)
  ∧ (presetKey (state w) = "custom"
     ∨ ∃ p, presets !! presetKey (state w) = Some p
            ∧ baseMinutes (state w) = minutes p
            ∧ incrementSeconds (state w) = increment p).
Proof.
  intros Hevents w.
  by destruct (run_settings_ok events _ Hevents initial_settings_ok).
Qed.

(** Blitz, a key without an entry, then a custom control of 0.4 minutes
    and -5 seconds. *)
Lemma settings_consistent_witness :
  let w := run [PresetClick "blitz"; PresetClick "hyperbullet";
                CustomSubmit (Finite (Q2Qc (4 # 10))) (Finite (Qc_of_Z (-5)))]
               (init initial_page) in
  incrementMs (state w) = incrementSeconds (state w) * Qc_of_Z 1000
  ∧ 1 ≤ baseMinutes (state w)
  ∧ 0 ≤ incrementSeconds (state w)
  ∧ (presetKey (state w) = "custom"
     ∨ ∃ p, presets !! presetKey (state w) = Some p
            ∧ baseMinutes (state w) = minutes p
            ∧ incrementSeconds (state w) = increment p).
Proof.
  apply (settings_consistent
           [PresetClick "blitz"; PresetClick "hyperbullet";
            CustomSubmit (Finite (Q2Qc (4 # 10))) (Finite (Qc_of_Z (-5)))]).
  vm_compute. reflexivity.
Defined.

(** X3.  In every reachable state the clock is running exactly when an
    animation frame is on request ([state.raf] is not null), and a running
    clock always has a side to move. *)
Theorem running_clock_has_frame_and_side w :
  reachable w →
  (running (state w) = true ↔ is_Some (raf (state w)))
  ∧ (running (state w) = true → is_Some (activePlayer (state w))).
Proof. intros [? ?]%reachable_schedule_ok. done. Qed.

(** A bullet game that has been started, played and flagged. *)
Lemma running_clock_has_frame_and_side_witness :
  let w := run [PresetClick "bullet"; StartPauseClick; AnimationFrame 0;
                PlayerClick P0; AnimationFrame (Qc_of_Z 70000)]
               (init initial_page) in
  (running (state w) = true ↔ is_Some (raf (state w)))
  ∧ (running (state w) = true → is_Some (activePlayer (state w))).
Proof.
  apply (running_clock_has_frame_and_side
           (run [PresetClick "bullet"; StartPauseClick; AnimationFrame 0;
                 PlayerClick P0; AnimationFrame (Qc_of_Z 70000)]
                (init initial_page))).
  cbn [run foldl]. do 5 apply reachable_handle. apply reachable_init.
Defined.

(** X4.  Loading a time control forgets the game in progress: the state
    after [applyPreset] with a key of the table, or after [applyCustom],
    is the same whatever the state was before.  In particular loading the
    same control twice gives the state of loading it once. *)
Theorem control_forgets_history key m i w1 w2 :
  key ∈ preset_keys →
  state (applyPreset key w1) = state (applyPreset key w2)
  ∧ state (applyCustom m i w1) = state (applyCustom m i w2)
  ∧ state (applyPreset key (applyPreset key w1)) = state (applyPreset key w1)
  ∧ state (applyCustom m i (applyCustom m i w1)) = state (applyCustom m i w1).
Proof.
  intros Hkey.
  destruct (presets !! key) as [p |] eqn:Hp;
    [| by apply presets_lookup_None in Hp].
  by rewrite !(state_applyPreset _ p), !state_applyCustom by done.
Qed.

(** Blitz loaded on a fresh page and in the middle of a rapid game. *)
Lemma control_forgets_history_witness :
  let w1 := init initial_page in
  let w2 := run [StartPauseClick; AnimationFrame 0; PlayerClick P0;
                 AnimationFrame (Qc_of_Z 2500)] (init initial_page) in
  state (applyPreset "blitz" w1) = state (applyPreset "blitz" w2)
  ∧ state (applyCustom (Qc_of_Z 3) (Qc_of_Z 2) w1)
    = state (applyCustom (Qc_of_Z 3) (Qc_of_Z 2) w2)
  ∧ state (applyPreset "blitz" (applyPreset "blitz" w1))
    = state (applyPreset "blitz" w1)
  ∧ state (applyCustom (Qc_of_Z 3) (Qc_of_Z 2)
             (applyCustom (Qc_of_Z 3) (Qc_of_Z 2) w1))
    = state (applyCustom (Qc_of_Z 3) (Qc_of_Z 2) w1).
Proof.
  apply (control_forgets_history "blitz").
  unfold preset_keys. repeat constructor.
Defined.

(** X5.  A confirmed reset puts the state where loading the control in
    force again would put it: [applyPreset] with the selected key, or
    [applyCustom] with the base minutes and increment in force when the
    selected key is "custom". *)
Theorem reset_reloads_control w :
  reachable w →
  state (confirmReset w) =
    if decide (presetKey (state w) = "custom")
    then state (applyCustom (baseMinutes (state w))
                            (incrementSeconds (state w)) w)
    else state (applyPreset (presetKey (state w)) w).
Proof.
  intros [[Hms Hmin Hinc Hkey] | [Ht Hms Hm Hi Hkey]]%reachable_settings_inv.
  - rewrite state_confirmReset. case_decide as Hcustom.
    + rewrite state_applyCustom, !Math_max_right by done.
      by rewrite Hms, Hcustom.
    + destruct Hkey as [? | (p & Hp & Hm & Hi)]; [done |].
      rewrite (state_applyPreset _ p) by done.
      by rewrite Hms, Hm, Hi.
  - destruct (Object_prototype_not_preset _ Hkey) as [_ Hcustom].
    rewrite decide_False by done.
    rewrite state_confirmReset, state_applyPreset_inherited by done.
    by rewrite Hms, Hm, Hi.
Qed.

(** A reset in the middle of a rapid game. *)
Lemma reset_reloads_control_witness :
  let w := run [StartPauseClick; AnimationFrame 0; PlayerClick P0;
                AnimationFrame (Qc_of_Z 2500)] (init initial_page) in
  state (confirmReset w) =
    if decide (presetKey (state w) = "custom")
    then state (applyCustom (baseMinutes (state w))
                            (incrementSeconds (state w)) w)
    else state (applyPreset (presetKey (state w)) w).
Proof.
  apply (reset_reloads_control
           (run [StartPauseClick; AnimationFrame 0; PlayerClick P0;
                 AnimationFrame (Qc_of_Z 2500)] (init initial_page))).
  cbn [run foldl]. do 4 apply reachable_handle. apply reachable_init.
Defined.

(** ** Frames, pauses and taps *)

Lemma step_active timestamp w p :
  running (state w) = true →
  activePlayer (state w) = Some p →
  times (state (step timestamp w)) = times (ticked timestamp p (state w))
  ∧ lastTick (state (step timestamp w)) = Some timestamp
  ∧ activePlayer (state (step timestamp w)) = Some p.
Proof.
  intros Hrun Hact.
  destruct (state_step timestamp w) as [? | ? ? | q _ Hq _ | q _ Hq _];
    try congruence.
  all: assert (q = p) as -> by congruence.
  all: by destruct (state w).
Qed.

Lemma Math_max_0_sub (t d : Qc) :
  (0 ≤ t)%Qc → (0 ≤ d)%Qc → Math_max 0 (t - d) ≤ t.
Proof.
  intros Ht Hd. cbn. case_decide; [| assumption].
  rewrite <-(Qcplus_0_r t) at 2. unfold Qcminus.
  apply Qcplus_le_mono_l.
  trans (- 0)%Qc; [by apply Qcopp_le_compat | qc_closed].
Qed.

(** X6.  A frame callback on a running clock charges the time since the
    previous frame to the side to move, stopping at 0, and to nobody else:
    with timestamps that do not go backwards the active clock becomes
    [max(0, remaining - (timestamp - lastTick))], which is no more than it
    was, the other clock keeps its value, and [lastTick] becomes the
    timestamp. *)
Theorem frame_charges_active_clock w (timestamp : Qc) p last :
  running (state w) = true →
  activePlayer (state w) = Some p →
  lastTick (state w) = Some last →
  last ≤ timestamp →
  0 ≤ time_of p (times (state w)) →
  time_of p (times (state (step timestamp w)))
  = Math_max 0 (time_of p (times (state w)) - (timestamp - last))
  ∧ 0 ≤ time_of p (times (state (step timestamp w)))
  ∧ time_of p (times (state (step timestamp w))) ≤ time_of p (times (state w))
  ∧ time_of (other p) (times (state (step timestamp w)))
    = time_of (other p) (times (state w))
  ∧ lastTick (state (step timestamp w)) = Some timestamp.
Proof.
  intros Hrun Hact Hlast Hle Hnonneg.
  destruct (step_active timestamp w p Hrun Hact) as (-> & -> & _).
  unfold ticked, delta_of. rewrite Hlast. cbn [times set_times set_lastTick].
  rewrite time_of_set_time, time_of_set_time_other.
  split_and!; try done.
  - by apply Math_max_0_nonneg.
  - apply js_le_0_inv in Hnonneg as (x & -> & Hx).
    apply Math_max_0_sub; [done |].
    unfold Qcminus. rewrite <-(Qcplus_opp_r last).
    by apply Qcplus_le_mono_r.
Qed.

(** Rapid: frames at 0 and 2500 ms after the start. *)
Lemma frame_charges_active_clock_witness :
  let w := run [StartPauseClick; AnimationFrame 0] (init initial_page) in
  time_of P0 (times (state (step (Qc_of_Z 2500) w)))
  = Math_max 0 (time_of P0 (times (state w)) - (Qc_of_Z 2500 - 0))
  ∧ 0 ≤ time_of P0 (times (state (step (Qc_of_Z 2500) w)))
  ∧ time_of P0 (times (state (step (Qc_of_Z 2500) w)))
    ≤ time_of P0 (times (state w))
  ∧ time_of (other P0) (times (state (step (Qc_of_Z 2500) w)))
    = time_of (other P0) (times (state w))
  ∧ lastTick (state (step (Qc_of_Z 2500) w)) = Some (Qc_of_Z 2500).
Proof.
  apply (frame_charges_active_clock _ (Qc_of_Z 2500) P0 0).
  - vm_compute. reflexivity.
  - vm_compute. reflexivity.
  - vm_compute. reflexivity.
  - vm_compute. discriminate.
  - vm_compute. discriminate.
Defined.

(** X7.  A pause costs nothing.  Pausing and resuming a running clock
    leaves it running with the same side to move and the same remaining
    times, and the first frame after the resume, whatever its timestamp,
    still charges nothing: the time spent paused is never taken off a
    clock. *)
Theorem pause_is_not_charged w :
  reachable w →
  running (state w) = true →
  running (state (toggleStart (toggleStart w))) = true
  ∧ activePlayer (state (toggleStart (toggleStart w))) = activePlayer (state w)
  ∧ times (state (toggleStart (toggleStart w))) = times (state w)
  ∧ ∀ timestamp,
      times (state (step timestamp (toggleStart (toggleStart w))))
      = times (state w).
Proof.
  intros Hreach Hrun.
  pose proof (reachable_clock_inv _ Hreach) as Hok.
  destruct (reachable_schedule_ok _ Hreach) as [_ Hside].
  destruct (Hside Hrun) as [p Hact].
  assert (state (toggleStart (toggleStart w)) =
          set_raf (Some (frames (toggleStart w)))
            (set_lastTick None (state w))) as Hstate.
  { rewrite !state_toggleStart, Hrun. cbn.
    destruct (state w); cbn in *. by subst. }
  rewrite Hstate. cbn. split_and!; try done.
  intros timestamp.
  destruct (step_active timestamp (toggleStart (toggleStart w)) p)
    as (-> & _); [by rewrite Hstate | by rewrite Hstate; cbn |].
  rewrite Hstate, ticked_baseline; [done | done |].
  cbn. by apply time_of_inv.
Qed.

(** Rapid, paused after 2.5 s and resumed; the next frame comes a minute
    later. *)
Lemma pause_is_not_charged_witness :
  let w := run [StartPauseClick; AnimationFrame 0;
                AnimationFrame (Qc_of_Z 2500)] (init initial_page) in
  running (state (toggleStart (toggleStart w))) = true
  ∧ activePlayer (state (toggleStart (toggleStart w))) = activePlayer (state w)
  ∧ times (state (toggleStart (toggleStart w))) = times (state w)
  ∧ ∀ timestamp,
      times (state (step timestamp (toggleStart (toggleStart w))))
      = times (state w).
Proof.
  apply (pause_is_not_charged
           (run [StartPauseClick; AnimationFrame 0;
                 AnimationFrame (Qc_of_Z 2500)] (init initial_page))).
  - cbn [run foldl]. do 3 apply reachable_handle. apply reachable_init.
  - vm_compute. reflexivity.
Defined.

Lemma handlePlayerTap_cases p w :
  handlePlayerTap p w = w
  ∨ (running (state w) = true
     ∧ activePlayer (state w) = Some p
     ∧ time_of p (times (state w)) ≠ 0).
Proof.
  destruct (running (state w)) eqn:Hrun;
    [| left; apply handlePlayerTap_rejected; auto].
  destruct (decide (activePlayer (state w) = Some p)) as [Hact | Hact];
    [| left; apply handlePlayerTap_rejected; auto].
  destruct (decide (time_of p (times (state w)) = 0)) as [Hzero | Hpos];
    [left; apply handlePlayerTap_rejected; auto | by right].
Qed.

(** X8.  A second tap by the same side changes nothing: if the first tap
    was ignored so is the second, and if the first passed the turn the
    other side is to move.  One press can never credit the increment
    twice. *)
Theorem double_tap_single_credit p w :
  handlePlayerTap p (handlePlayerTap p w) = handlePlayerTap p w.
Proof.
  destruct (handlePlayerTap_cases p w) as [Hsame | (Hrun & Hact & Hpos)].
  - by rewrite !Hsame.
  - apply handlePlayerTap_rejected. right; left.
    rewrite handlePlayerTap_accepted, state_render, state_updateActiveClasses
      by done.
    cbn. intros [= Hp]. by destruct p.
Qed.

(** X9.  What a frame callback never does.  Whatever the state and the
    timestamp, it does not change the side to move, does not touch the
    clock of a side that is not to move, and does not set a stopped clock
    running. *)
Theorem frame_leaves_the_rest w timestamp :
  activePlayer (state (step timestamp w)) = activePlayer (state w)
  ∧ (∀ q, activePlayer (state w) ≠ Some q →
          time_of q (times (state (step timestamp w)))
          = time_of q (times (state w)))
  ∧ (running (state (step timestamp w)) = true → running (state w) = true).
Proof.
  destruct (state_step timestamp w) as [Hrun | Hrun Hact | p Hrun Hact Hzero
                                        | p Hrun Hact Hpos].
  - split_and!; try done.
  - destruct (state w); cbn in *. split_and!; try done.
  - destruct (state w) as [bm isec tm ims ap rn lt rf pk]; cbn in *. subst.
    split_and!; try done. intros q Hq. unfold ticked. cbn.
    destruct p, q; try done.
  - destruct (state w) as [bm isec tm ims ap rn lt rf pk]; cbn in *. subst.
    split_and!; try done. intros q Hq. unfold ticked. cbn.
    destruct p, q; try done.
Qed.

(** X10.  Start and pause.  The Start/Pause button flips [running] and
    never changes a remaining time.  Pausing keeps the side to move and
    drops the frame request; starting clears [lastTick] and gives the move
    to side 0 only when no side has it yet, otherwise the side that was to
    move goes on. *)
Theorem start_pause_keeps_clocks w :
  running (state (toggleStart w)) = negb (running (state w))
  ∧ times (state (toggleStart w)) = times (state w)
  ∧ (running (state w) = true →
     activePlayer (state (toggleStart w)) = activePlayer (state w)
     ∧ raf (state (toggleStart w)) = None
     ∧ lastTick (state (toggleStart w)) = lastTick (state w))
  ∧ (running (state w) = false →
     activePlayer (state (toggleStart w))
     = Some (default P0 (activePlayer (state w)))
     ∧ lastTick (state (toggleStart w)) = None
     ∧ raf (state (toggleStart w)) = Some (frames w)).
Proof.
  rewrite state_toggleStart.
  destruct w as [[bm isec tm ims ap rn lt rf pk] c f fr l].
  destruct rn; cbn [state running negb]; split_and!; done.
Qed.

(** X11.  A flag ends the game being played.  Once the side to move is at
    0, no sequence of start/pause clicks, taps, dialog events and frame
    callbacks changes either remaining time: only a time control, a
    confirmed reset or a swap does. *)
Theorem flag_is_final p events w :
  flagged p (state w) →
  forallb play_event events = true →
  flagged p (state (run events w))
  ∧ times (state (run events w)) = times (state w).
Proof.
  revert w. induction events as [| e events IH]; intros w Hflag Hplay; [done |].
  cbn in Hplay. apply andb_prop in Hplay as [He Hplay]. cbn.
  destruct (flagged_terminal p e w He Hflag) as [Hflag' <-].
  by apply IH.
Qed.

(** The bullet game after side 0 has run out, followed by a restart, a
    frame, taps of both sides and another click on the button. *)
Lemma flag_is_final_witness :
  let w := run [PresetClick "bullet"; StartPauseClick; AnimationFrame 0;
                AnimationFrame (Qc_of_Z 60000)] (init initial_page) in
  let events := [StartPauseClick; AnimationFrame (Qc_of_Z 70000);
                 PlayerClick P0; PlayerClick P1; StartPauseClick] in
  flagged P0 (state (run events w))
  ∧ times (state (run events w)) = times (state w).
Proof.
  apply (flag_is_final P0).
  - split_and!.
    + vm_compute. reflexivity.
    + value_closed.
    + intros H. vm_compute in H. discriminate H.
  - vm_compute. reflexivity.
Defined.

(** ** The reset dialog *)

(** X12.  The Reset button alone never touches the clock: it only opens
    the confirmation dialog, and pressing it again while the dialog is
    open does nothing more.  Cancel, a click on the backdrop and the
    Escape key close the dialog and leave the state as it is; any other
    key, and any key while the dialog is closed, is ignored.  A confirmed
    reset closes the dialog as well. *)
Theorem reset_needs_confirmation w :
  (state (requestReset w) = state w
   ∧ confirming (requestReset w) = true
   ∧ requestReset (requestReset w) = requestReset w)
  ∧ (state (closeResetModal w) = state w
     ∧ confirming (closeResetModal w) = false
     ∧ closeResetModal (closeResetModal w) = closeResetModal w)
  ∧ (∀ key, state (keydown key w) = state w
            ∧ (key ≠ "Escape" → keydown key w = w)
            ∧ (confirming w = false → keydown key w = w)
            ∧ keydown "Escape" w = closeResetModal w)
  ∧ confirming (confirmReset w) = false.
Proof.
  assert (∀ w', confirming (stopClock w') = confirming w') as Hstop.
  { intros w'. unfold stopClock, andThen. cbn. by case_match. }
  unfold requestReset, openResetModal, keydown, handleResetModalKey,
    confirmReset, andThen.
  change (confirming (resetClock ?x)) with (confirming x).
  rewrite Hstop. unfold closeResetModal, andThen.
  destruct w as [s c [] fr l]; cbn.
  - split_and!; try done.
    intros key. case_bool_decide as Hkey; cbn; split_and!; done.
  - split_and!; done.
Qed.

(** ** The click sounds *)

Lemma clickPoolIndex_stopClock w : clickPoolIndex (stopClock w) = clickPoolIndex w.
Proof. unfold stopClock, andThen. cbn. by case_match. Qed.

Lemma clickPoolIndex_step timestamp w :
  clickPoolIndex (step timestamp w) = clickPoolIndex w.
Proof.
  destruct (running (state w)) eqn:Hrun; [| by rewrite step_paused].
  destruct (activePlayer (state w)) as [p |] eqn:Hact;
    [| by rewrite step_idle].
  rewrite (step_running _ _ p) by done. case_match; [| done].
  unfold flagPlayer, andThen. cbn. by rewrite clickPoolIndex_stopClock.
Qed.

Lemma clickPoolIndex_handle e w :
  (clickPoolIndex w < CLICK_POOL_SIZE)%nat →
  (clickPoolIndex (handle e w) < CLICK_POOL_SIZE)%nat.
Proof.
  intros Hlt. destruct e; cbn [handle].
  - unfold handlePlayerTapStart. case_match; [done |].
    unfold playClickSound, andThen, set_clickPoolIndex, emit.
    cbn [clickPoolIndex]. by apply Nat.mod_upper_bound.
  - destruct (handlePlayerTap_cases p w) as [-> | (? & ? & ?)]; [done |].
    by rewrite handlePlayerTap_accepted.
  - unfold applyPreset. case_match; [| done].
    unfold andThen. cbn. by rewrite clickPoolIndex_stopClock.
  - unfold customSubmit. repeat case_match; try done.
    unfold applyCustom, andThen. cbn. by rewrite clickPoolIndex_stopClock.
  - unfold toggleStart. case_match.
    + unfold andThen. cbn. by rewrite clickPoolIndex_stopClock.
    + by case_match.
  - unfold requestReset, openResetModal. by case_match.
  - unfold swapPlayers, andThen. cbn. by case_match.
  - unfold confirmReset, andThen. cbn. rewrite clickPoolIndex_stopClock.
    unfold closeResetModal. by case_match.
  - unfold closeResetModal. by case_match.
  - unfold closeResetModal. by case_match.
  - unfold closeResetModal. by case_match.
  - by rewrite clickPoolIndex_step.
Qed.

Lemma reachable_clickPoolIndex w :
  reachable w → (clickPoolIndex w < CLICK_POOL_SIZE)%nat.
Proof.
  induction 1; [| by apply clickPoolIndex_handle].
  vm_compute. lia.
Qed.

Lemma clickPoolIndex_playClickSound w :
  clickPoolIndex (playClickSound w)
  = ((clickPoolIndex w + 1) `mod` CLICK_POOL_SIZE)%nat.
Proof. done. Qed.

Lemma clickPoolIndex_iter n w :
  (clickPoolIndex w < CLICK_POOL_SIZE)%nat →
  clickPoolIndex (Nat.iter n playClickSound w)
  = ((clickPoolIndex w + n) `mod` CLICK_POOL_SIZE)%nat.
Proof.
  intros Hlt. induction n as [| n IH].
  - by rewrite Nat.add_0_r, Nat.mod_small.
  - change (Nat.iter (S n) playClickSound w)
      with (playClickSound (Nat.iter n playClickSound w)).
    rewrite clickPoolIndex_playClickSound, IH.
    rewrite Nat.Div0.add_mod_idemp_l. f_equal. lia.
Qed.

(** X13.  The click sounds go round a pool of four audio elements.  The
    pool index of a reachable page is always below 4.  Pressing the button
    of side [p] plays a sound exactly when the clock runs and [p] is to
    move; the sound is played on the element at the index, which then
    moves on by one modulo 4, so four sounds in a row use the four
    elements once each and come back to the first. *)
Theorem click_pool_round_robin w :
  reachable w →
  (clickPoolIndex w < CLICK_POOL_SIZE)%nat
  ∧ (∀ p, emitted (handlePlayerTapStart p) w
          = if running (state w)
               && bool_decide (activePlayer (state w) = Some p)
            then [ClickSound (clickPoolIndex w)] else [])
  ∧ (∀ n, clickPoolIndex (Nat.iter n playClickSound w)
          = ((clickPoolIndex w + n) `mod` CLICK_POOL_SIZE)%nat)
  ∧ clickPoolIndex (Nat.iter CLICK_POOL_SIZE playClickSound w)
    = clickPoolIndex w.
Proof.
  intros Hlt%reachable_clickPoolIndex.
  assert (∀ n, clickPoolIndex (Nat.iter n playClickSound w)
               = ((clickPoolIndex w + n) `mod` CLICK_POOL_SIZE)%nat) as Hiter.
  { intros n. by apply clickPoolIndex_iter. }
  split_and!; [done | | done |].
  - intros p. apply emitted_app. unfold handlePlayerTapStart.
    destruct (running (state w)), (bool_decide _); cbn;
      by rewrite ?app_nil_r.
  - rewrite Hiter.
    rewrite <-(Nat.mul_1_l CLICK_POOL_SIZE) at 1.
    by rewrite Nat.Div0.mod_add, Nat.mod_small.
Qed.

(** Three presses of the side to move in a rapid game. *)
Lemma click_pool_round_robin_witness :
  let w := run [StartPauseClick; PlayerPointerDown P0; PlayerClick P0;
                PlayerPointerDown P1; PlayerClick P1; PlayerPointerDown P0]
               (init initial_page) in
  (clickPoolIndex w < CLICK_POOL_SIZE)%nat
  ∧ (∀ p, emitted (handlePlayerTapStart p) w
          = if running (state w)
               && bool_decide (activePlayer (state w) = Some p)
            then [ClickSound (clickPoolIndex w)] else [])
  ∧ (∀ n, clickPoolIndex (Nat.iter n playClickSound w)
          = ((clickPoolIndex w + n) `mod` CLICK_POOL_SIZE)%nat)
  ∧ clickPoolIndex (Nat.iter CLICK_POOL_SIZE playClickSound w)
    = clickPoolIndex w.
Proof.
  apply (click_pool_round_robin
           (run [StartPauseClick; PlayerPointerDown P0; PlayerClick P0;
                 PlayerPointerDown P1; PlayerClick P1; PlayerPointerDown P0]
                (init initial_page))).
  cbn [run foldl]. do 6 apply reachable_handle. apply reachable_init.
Defined.

(** ** The clock face *)

Lemma totalSeconds_of_bounds ms :
  (Qc_of_Z ((totalSeconds_of ms - 1) * 1000) < ms
   ∧ ms ≤ Qc_of_Z (totalSeconds_of ms * 1000))%Qc.
Proof.
  pose proof (Qle_ceiling (this ms / 1000)) as Hle.
  pose proof (Qceiling_lt (this ms / 1000)) as Hlt.
  fold (totalSeconds_of ms) in Hle, Hlt.
  revert Hle Hlt. generalize (totalSeconds_of ms). intros k Hle Hlt.
  unfold Qclt, Qcle. cbn [this Qc_of_Z].
  rewrite !inject_Z_mult. unfold Z.sub in *. rewrite inject_Z_plus in *.
  rewrite inject_Z_opp in *.
  change (inject_Z 1) with 1%Q in *. change (inject_Z 1000) with 1000%Q.
  assert (this ms == (this ms / 1000) * 1000)%Q as Hms by field.
  set (x := (this ms / 1000)%Q) in *. set (q := this ms) in *.
  split; lra.
Qed.

Lemma totalSeconds_of_nonneg ms : (0 ≤ ms)%Qc → (0 ≤ totalSeconds_of ms)%Z.
Proof.
  intros Hms. destruct (totalSeconds_of_bounds ms) as [_ Hle].
  destruct (decide (0 ≤ totalSeconds_of ms)%Z) as [| Hneg]; [done |].
  exfalso.
  assert (totalSeconds_of ms * 1000 < 0)%Z as Hk by lia.
  apply Z2Qc_inj_lt in Hk. rewrite Z2Qc_inj_0 in Hk.
  apply (Qclt_not_le _ _ Hk). by trans ms.
Qed.

Lemma displayable_nonneg ms : displayable ms → (0 ≤ ms)%Qc.
Proof.
  intros [-> | [Hlo _]]; [done |].
  trans (Q2Qc (2 ^ (-1022))%Q); [qc_closed | done].
Qed.

Lemma length_append (s1 s2 : string) :
  String.length (s1 +:+ s2) = (String.length s1 + String.length s2)%nat.
Proof.
  induction s1 as [| c s1 IH]; [done |].
  change (String c s1 +:+ s2) with (String c (s1 +:+ s2)). cbn. by f_equal.
Qed.

(** The seconds field: [String(seconds).padStart(2, "0")]. *)
Lemma seconds_field (s : Z) :
  (0 ≤ s < 60)%Z →
  padStart 2 "0" (String_of s)
  = (if decide (s < 10)%Z then "0" +:+ pretty s else pretty s)
  ∧ String.length (padStart 2 "0" (String_of s)) = 2%nat
  ∧ (padStart 2 "0" (String_of s) = "00" → s = 0%Z).
Proof.
  intros [Hlo Hhi]. destruct s as [| n | n]; [by vm_compute | | lia].
  do 6 (try destruct n as [n | n |]); try lia.
  all: vm_compute; split_and!; try reflexivity; discriminate.
Qed.

(** X14.  The clock face rounds up to the next whole second.  For a
    remaining time [ms] that is 0 or lies between [2^-1022] and [2^53],
    the text is [m:ss] where [m] minutes and [s] seconds ([0 <= s < 60],
    [s] written with two digits) are the least whole number of seconds
    that is not below [ms / 1000]. *)
Theorem formatTime_rounds_up (ms : Qc) :
  displayable ms →
  ∃ m s : Z,
    (0 ≤ m)%Z ∧ (0 ≤ s < 60)%Z
    ∧ (Qc_of_Z ((60 * m + s - 1) * 1000) < ms)%Qc
    ∧ (ms ≤ Qc_of_Z ((60 * m + s) * 1000))%Qc
    ∧ formatTime ms =
        pretty m +:+ ":" +:+
        (if decide (s < 10)%Z then "0" +:+ pretty s else pretty s).
Proof.
  intros Hms%displayable_nonneg.
  pose proof (totalSeconds_of_nonneg ms Hms) as Hk.
  destruct (totalSeconds_of_bounds ms) as [Hlt Hle].
  exists (totalSeconds_of ms `div` 60)%Z, (Z.rem (totalSeconds_of ms) 60).
  rewrite Z.rem_mod_nonneg by lia.
  assert (0 ≤ totalSeconds_of ms `mod` 60 < 60)%Z as Hs
    by (apply Z.mod_pos_bound; lia).
  rewrite <-Z.div_mod by lia.
  split_and!; try done; try lia.
  - apply Z.div_pos; lia.
  - unfold formatTime. cbn zeta. rewrite Z.rem_mod_nonneg by lia.
    by destruct (seconds_field _ Hs) as (-> & _).
Qed.

(** One millisecond left shows as 0:01. *)
Lemma formatTime_rounds_up_witness :
  ∃ m s : Z,
    (0 ≤ m)%Z ∧ (0 ≤ s < 60)%Z
    ∧ (Qc_of_Z ((60 * m + s - 1) * 1000) < 1)%Qc
    ∧ (1 ≤ Qc_of_Z ((60 * m + s) * 1000))%Qc
    ∧ formatTime 1%Qc =
        pretty m +:+ ":" +:+
        (if decide (s < 10)%Z then "0" +:+ pretty s else pretty s).
Proof.
  apply (formatTime_rounds_up 1%Qc).
  right. split; vm_compute; discriminate.
Defined.

Lemma formatTime_zero_iff (ms : Qc) :
  (0 ≤ ms)%Qc →
  formatTime ms = "0:00" ↔ ms = 0%Qc.
Proof.
  intros Hms. split; [| by intros ->].
  intros Htext.
  pose proof (totalSeconds_of_nonneg ms Hms) as Hk.
  destruct (totalSeconds_of_bounds ms) as [_ Hle].
  assert (0 ≤ totalSeconds_of ms `mod` 60 < 60)%Z as Hs
    by (apply Z.mod_pos_bound; lia).
  unfold formatTime in Htext. cbn zeta in Htext.
  rewrite Z.rem_mod_nonneg in Htext by lia.
  destruct (seconds_field _ Hs) as (_ & Hlen & Hzero).
  pose proof (f_equal String.length Htext) as Hlength.
  rewrite !length_append, Hlen in Hlength. cbn in Hlength.
  unfold String_of in *.
  destruct (pretty (totalSeconds_of ms `div` 60)%Z) as [| c [| c' rest]] eqn:Hm;
    cbn in Hlength; try lia.
  cbn in Htext. injection Htext as -> Hss.
  apply Hzero in Hss.
  assert ((totalSeconds_of ms `div` 60)%Z = 0%Z) as Hdiv
    by by apply (inj pretty).
  assert (totalSeconds_of ms = 0%Z) as Hzero'.
  { rewrite (Z.div_mod (totalSeconds_of ms) 60) by lia. lia. }
  rewrite Hzero' in Hle. apply Qcle_antisym; [| done].
  by rewrite <-Z2Qc_inj_0.
Qed.

(** The same for what a clock of the state can hold. *)
Lemma formatTime_zero_value a :
  0 ≤ a ∨ a = NotANumber → formatTime a = "0:00" → a = 0.
Proof.
  intros [(x & -> & Hx)%js_le_0_inv | ->] Htext; [| done].
  f_equal. by apply formatTime_zero_iff.
Qed.

(** X15.  While time is left the clock face never reads 0:00: for a
    remaining time [ms] that is 0 or lies between [2^-1022] and [2^53],
    the text is "0:00" exactly when [ms] is 0. *)
Theorem formatTime_zero_only_at_zero (ms : Qc) :
  displayable ms →
  formatTime ms = "0:00" ↔ ms = 0%Qc.
Proof. intros Hms%displayable_nonneg. by apply formatTime_zero_iff. Qed.

(** Half a second left. *)
Lemma formatTime_zero_only_at_zero_witness :
  formatTime (Qc_of_Z 500) = "0:00" ↔ Qc_of_Z 500 = 0%Qc.
Proof.
  apply (formatTime_zero_only_at_zero (Qc_of_Z 500)).
  right. split; vm_compute; discriminate.
Defined.

(** ** The document and the state *)

Lemma screen_of_snoc l e : screen_of (l ++ [e]) = paint (screen_of l) e.
Proof. unfold screen_of. by rewrite foldl_app. Qed.

Lemma preset_label_not_playing key p :
  presets !! key = Some p → label p +:+ " loaded" ≠ "Playing".
Proof.
  intros H%elem_of_list_to_map_2.
  repeat (apply elem_of_cons in H as [H | H];
          [injection H as -> ->; by vm_compute |]).
  by apply elem_of_nil in H.
Qed.

Ltac page_cbn :=
  cbn [state log clickPoolIndex confirming frames baseMinutes
       incrementSeconds times incrementMs activePlayer running lastTick raf
       presetKey on_state emit set_confirming set_clickPoolIndex
       set_baseMinutes set_incrementSeconds set_times set_incrementMs
       set_activePlayer set_running set_lastTick set_raf set_presetKey] in *.

Ltac face_split :=
  split; page_cbn; rewrite ?screen_of_snoc;
  cbn [paint statusText startPauseText timeText incrementText layoutPlaying
       highlighted shown_time fst snd].

Ltac face_iff :=
  first [ assumption
        | split; let H := fresh in
                 intros H; first [ discriminate H | done | by inversion H ] ].

Lemma emit_silent_face_ok e w :
  paint (screen_of (log w)) e = screen_of (log w) →
  face_ok w → face_ok (emit e w).
Proof.
  intros He [? ? ? ? ? ?]. split; page_cbn; rewrite ?screen_of_snoc, He; done.
Qed.

Lemma toggleStart_face_ok w : face_ok w → face_ok (toggleStart w).
Proof.
  intros [Hlay Hbut Hstat Hinc Hhi Htimes].
  destruct w as [[bm isec tm ims ap rn lt rf pk] c f fr l].
  unfold toggleStart, stopClock, scheduleTick, updateActiveClasses,
    toggle_classes, updateLayoutState, setStatus, andThen.
  page_cbn. destruct rn; page_cbn.
  - destruct rf; face_split; try done; face_iff.
  - destruct ap; face_split; try done; try face_iff.
    all: intros q; destruct (Htimes q) as [? | [? ?]]; [by left | done].
Qed.

Lemma handlePlayerTapStart_face_ok p w :
  face_ok w → face_ok (handlePlayerTapStart p w).
Proof.
  intros Hok. unfold handlePlayerTapStart. case_match; [done |].
  destruct Hok as [? ? ? ? ? ?].
  unfold playClickSound, andThen. face_split; done.
Qed.

Lemma handlePlayerTap_face_ok p w : face_ok w → face_ok (handlePlayerTap p w).
Proof.
  intros Hok.
  destruct (handlePlayerTap_cases p w) as [-> | (Hrun & Hact & Hpos)]; [done |].
  rewrite handlePlayerTap_accepted by done.
  destruct Hok as [Hlay Hbut Hstat Hinc Hhi Htimes].
  unfold render, updateActiveClasses, toggle_classes, andThen.
  face_split; try done.
  intros q. left. by destruct q.
Qed.

Lemma swapPlayers_face_ok w : face_ok w → face_ok (swapPlayers w).
Proof.
  intros [Hlay Hbut Hstat Hinc Hhi Htimes].
  destruct w as [[bm isec tm ims ap rn lt rf pk] c f fr l].
  unfold swapPlayers, render, updateActiveClasses, toggle_classes, andThen.
  page_cbn. destruct ap; face_split; try done.
  all: intros q; left; by destruct q.
Qed.

Lemma reset_face_ok w :
  running (state w) = false →
  layoutPlaying (screen_of (log w)) = Some false →
  highlighted (screen_of (log w)) = Some (presetKey (state w)) →
  face_ok (resetClock w).
Proof.
  intros Hrun Hlay Hhi.
  destruct w as [[bm isec tm ims ap rn lt rf pk] c f fr l].
  unfold resetClock, render, updateActiveClasses, toggle_classes, setStatus,
    andThen.
  page_cbn. subst rn. face_split; try done; try face_iff.
  intros q. left. by destruct q.
Qed.

Lemma stopClock_screen w :
  running (state (stopClock w)) = false
  ∧ layoutPlaying (screen_of (log (stopClock w))) = Some false
  ∧ highlighted (screen_of (log (stopClock w)))
    = highlighted (screen_of (log w))
  ∧ presetKey (state (stopClock w)) = presetKey (state w).
Proof.
  destruct w as [[bm isec tm ims ap rn lt rf pk] c f fr l].
  unfold stopClock, updateLayoutState, andThen. page_cbn.
  destruct rf; page_cbn; rewrite ?screen_of_snoc; done.
Qed.

Lemma confirmReset_face_ok w : face_ok w → face_ok (confirmReset w).
Proof.
  intros [Hlay Hbut Hstat Hinc Hhi Htimes].
  unfold confirmReset, andThen.
  destruct (stopClock_screen (closeResetModal w)) as (? & ? & Hh & Hk).
  apply reset_face_ok; [done | done |].
  rewrite Hh, Hk. unfold closeResetModal. case_match; [done |].
  unfold andThen. page_cbn. by rewrite screen_of_snoc.
Qed.

Lemma closeResetModal_face_ok w : face_ok w → face_ok (closeResetModal w).
Proof.
  intros Hok. unfold closeResetModal. case_match; [done |].
  destruct Hok as [? ? ? ? ? ?]. unfold andThen. face_split; done.
Qed.

Lemma openResetModal_face_ok w : face_ok w → face_ok (openResetModal w).
Proof.
  intros Hok. unfold openResetModal. case_match; [done |].
  destruct Hok as [? ? ? ? ? ?]. unfold andThen. face_split; done.
Qed.

Ltac unfold_commands :=
  unfold applyPreset, applyCustom, confirmReset, toggleStart, flagPlayer,
    swapPlayers, resetClock, stopClock, scheduleTick, render,
    updateActiveClasses, toggle_classes, updateLayoutState, highlightPreset,
    setStatus, andThen.

Lemma found_label_not_playing key o :
  presets_get key = Some o → label_text o +:+ " loaded" ≠ "Playing".
Proof.
  unfold presets_get. destruct (presets !! key) as [p |] eqn:Hp.
  - intros [= <-]. by apply (preset_label_not_playing key).
  - case_bool_decide; [intros [= <-]; by vm_compute | done].
Qed.

Lemma applyPreset_face_ok key w : face_ok w → face_ok (applyPreset key w).
Proof.
  intros Hok.
  destruct (presets_get key) as [o |] eqn:Hget;
    [| by rewrite applyPreset_undefined].
  pose proof (found_label_not_playing _ _ Hget) as Hlabel.
  clear Hok. destruct w as [[bm isec tm ims ap rn lt rf pk] c f fr l].
  unfold_commands. rewrite Hget. page_cbn.
  destruct rf; face_split; try done; try face_iff.
  all: try (split; intros H; [by injection H | discriminate H]).
  all: intros q; left; by destruct q.
Qed.

Lemma applyCustom_face_ok m i w : face_ok (applyCustom m i w).
Proof.
  destruct w as [[bm isec tm ims ap rn lt rf pk] c f fr l].
  unfold_commands. page_cbn.
  destruct rf; face_split; try done; try face_iff.
  all: intros q; left; by destruct q.
Qed.

Lemma flagPlayer_face_ok p w :
  incrementText (screen_of (log w)) = Some (incrementSeconds (state w)) →
  highlighted (screen_of (log w)) = Some (presetKey (state w)) →
  (∀ q, shown_time q (screen_of (log w))
        = Some (formatTime (time_of q (times (state w))))
        ∨ (activePlayer (state w) = Some q ∧ time_of q (times (state w)) = 0)) →
  face_ok (flagPlayer p w).
Proof.
  intros Hinc Hhi Htimes.
  destruct w as [[bm isec tm ims ap rn lt rf pk] c f fr l].
  unfold_commands. page_cbn.
  destruct rf, p; face_split; try done; face_iff.
Qed.

Lemma step_face_ok timestamp w : face_ok w → face_ok (step timestamp w).
Proof.
  intros Hok.
  destruct (running (state w)) eqn:Hrun; [| by rewrite step_paused].
  destruct (activePlayer (state w)) as [p |] eqn:Hact; cycle 1.
  { rewrite step_idle by done.
    destruct Hok as [Hlay Hbut Hstat Hinc Hhi Htimes].
    unfold_commands. face_split; try done.
    intros q. left. by destruct q. }
  rewrite (step_running _ _ p) by done.
  destruct Hok as [Hlay Hbut Hstat Hinc Hhi Htimes].
  destruct (strict_eq _ _) eqn:Hzero.
  - apply strict_eq_true in Hzero.
    apply flagPlayer_face_ok.
    + cbn [log on_state state]. by destruct (state w).
    + cbn [log on_state state]. by destruct (state w).
    + intros q. cbn [log on_state state].
      destruct (decide (q = p)) as [-> | Hq].
      { right. split; [by destruct (state w) | done]. }
      assert (time_of q (times (ticked timestamp p (state w)))
              = time_of q (times (state w))) as ->.
      { unfold ticked. cbn. by destruct p, q. }
      destruct (Htimes q) as [? | [Hq' _]]; [by left | congruence].
  - unfold_commands. face_split; try done.
    intros q. left. by destruct q.
Qed.

Lemma handle_face_ok e w : face_ok w → face_ok (handle e w).
Proof.
  intros Hok. destruct e; cbn [handle].
  - by apply handlePlayerTapStart_face_ok.
  - by apply handlePlayerTap_face_ok.
  - by apply applyPreset_face_ok.
  - unfold customSubmit. repeat case_match; try done.
    apply applyCustom_face_ok.
  - by apply toggleStart_face_ok.
  - by apply openResetModal_face_ok.
  - by apply swapPlayers_face_ok.
  - by apply confirmReset_face_ok.
  - by apply closeResetModal_face_ok.
  - by apply closeResetModal_face_ok.
  - by apply closeResetModal_face_ok.
  - by apply step_face_ok.
Qed.

Lemma initial_face_ok : face_ok (init initial_page).
Proof.
  split.
  - vm_compute. reflexivity.
  - vm_compute. split; intros H; discriminate H.
  - vm_compute. split; intros H; discriminate H.
  - vm_compute. reflexivity.
  - vm_compute. reflexivity.
  - intros p. left. destruct p; vm_compute; reflexivity.
Qed.

Lemma reachable_face_ok w : reachable w → face_ok w.
Proof.
  induction 1; [apply initial_face_ok | by apply handle_face_ok].
Qed.

(** X16.  In every reachable page the document says whether the clock
    runs: the layout class is on exactly while it runs, the Start/Pause
    button reads "Pause" exactly while it runs, the status line reads
    "Playing" exactly while it runs, and that is also exactly when closing
    the page asks for confirmation.  The increment shown and the
    highlighted preset are always the ones in force. *)
Theorem document_tracks_running w :
  reachable w →
  layoutPlaying (screen_of (log w)) = Some (running (state w))
  ∧ (startPauseText (screen_of (log w)) = Some "Pause"
     ↔ running (state w) = true)
  ∧ (statusText (screen_of (log w)) = Some "Playing"
     ↔ running (state w) = true)
  ∧ (handleBeforeUnload w = true
     ↔ startPauseText (screen_of (log w)) = Some "Pause")
  ∧ incrementText (screen_of (log w)) = Some (incrementSeconds (state w))
  ∧ highlighted (screen_of (log w)) = Some (presetKey (state w)).
Proof.
  intros [Hlay Hbut Hstat Hinc Hhi _]%reachable_face_ok.
  split_and!; try done.
  rewrite Hbut. unfold handleBeforeUnload.
  by destruct (running (state w)).
Qed.

(** A blitz game, paused after a tap. *)
Lemma document_tracks_running_witness :
  let w := run [PresetClick "blitz"; StartPauseClick; AnimationFrame 0;
                PlayerClick P0; StartPauseClick] (init initial_page) in
  layoutPlaying (screen_of (log w)) = Some (running (state w))
  ∧ (startPauseText (screen_of (log w)) = Some "Pause"
     ↔ running (state w) = true)
  ∧ (statusText (screen_of (log w)) = Some "Playing"
     ↔ running (state w) = true)
  ∧ (handleBeforeUnload w = true
     ↔ startPauseText (screen_of (log w)) = Some "Pause")
  ∧ incrementText (screen_of (log w)) = Some (incrementSeconds (state w))
  ∧ highlighted (screen_of (log w)) = Some (presetKey (state w)).
Proof.
  apply (document_tracks_running
           (run [PresetClick "blitz"; StartPauseClick; AnimationFrame 0;
                 PlayerClick P0; StartPauseClick] (init initial_page))).
  cbn [run foldl]. do 5 apply reachable_handle. apply reachable_init.
Defined.

(** X17.  In every reachable page each time element shows [formatTime] of
    the remaining time of its side, with one exception: the element of the
    side to move may be out of date when that side is at 0.  So a clock
    with time left is always shown as it is. *)
Theorem clock_face_shows_times w p :
  reachable w →
  (shown_time p (screen_of (log w))
   = Some (formatTime (time_of p (times (state w))))
   ∨ (activePlayer (state w) = Some p ∧ time_of p (times (state w)) = 0))
  ∧ (time_of p (times (state w)) ≠ 0 →
     shown_time p (screen_of (log w))
     = Some (formatTime (time_of p (times (state w))))).
Proof.
  intros [_ _ _ _ _ Htimes]%reachable_face_ok.
  split; [done |].
  intros Hpos. by destruct (Htimes p) as [? | [_ ?]].
Qed.

(** Rapid, 2.5 s into the first move. *)
Lemma clock_face_shows_times_witness :
  let w := run [StartPauseClick; AnimationFrame 0;
                AnimationFrame (Qc_of_Z 2500)] (init initial_page) in
  (shown_time P0 (screen_of (log w))
   = Some (formatTime (time_of P0 (times (state w))))
   ∨ (activePlayer (state w) = Some P0 ∧ time_of P0 (times (state w)) = 0))
  ∧ (time_of P0 (times (state w)) ≠ 0 →
     shown_time P0 (screen_of (log w))
     = Some (formatTime (time_of P0 (times (state w))))).
Proof.
  apply (clock_face_shows_times
           (run [StartPauseClick; AnimationFrame 0;
                 AnimationFrame (Qc_of_Z 2500)] (init initial_page)) P0).
  cbn [run foldl]. do 3 apply reachable_handle. apply reachable_init.
Defined.

Lemma step_reaches_zero timestamp w p :
  running (state w) = true →
  activePlayer (state w) = Some p →
  time_of p (times (state (step timestamp w))) = 0 →
  step timestamp w = flagPlayer p (on_state (ticked timestamp p) w).
Proof.
  intros Hrun Hact Hzero. apply step_flags; [done | done |].
  destruct (decide (time_of p (times (ticked timestamp p (state w))) = 0))
    as [| Hpos]; [done |].
  rewrite (step_continues _ _ p) in Hzero by done. by cbn in Hzero.
Qed.

Lemma flagPlayer_timeText p w :
  timeText (screen_of (log (flagPlayer p w))) = timeText (screen_of (log w)).
Proof.
  destruct w as [[bm isec tm ims ap rn lt rf pk] c f fr l].
  unfold_commands. page_cbn.
  destruct rf; page_cbn; by rewrite ?screen_of_snoc.
Qed.

(** X18.  The frame that flags a side does not repaint the clocks
    ([flagPlayer] is called instead of [render]).  When a side with time
    left runs out, both time elements keep the text of the previous
    repaint: the element of the flagged side still shows the time it had
    before the frame, which is not 0:00. *)
Theorem flagging_frame_does_not_repaint w timestamp p :
  reachable w →
  running (state w) = true →
  activePlayer (state w) = Some p →
  time_of p (times (state w)) ≠ 0 →
  time_of p (times (state (step timestamp w))) = 0 →
  timeText (screen_of (log (step timestamp w))) = timeText (screen_of (log w))
  ∧ shown_time p (screen_of (log (step timestamp w)))
    = Some (formatTime (time_of p (times (state w))))
  ∧ shown_time p (screen_of (log (step timestamp w))) ≠ Some "0:00".
Proof.
  intros Hreach Hrun Hact Hpos Hzero.
  rewrite (step_reaches_zero _ _ p) by done.
  assert (shown_time p (screen_of (log (flagPlayer p
                          (on_state (ticked timestamp p) w))))
          = Some (formatTime (time_of p (times (state w))))) as Hshown.
  { destruct (reachable_face_ok _ Hreach) as [_ _ _ _ _ Htimes].
    unfold shown_time. rewrite flagPlayer_timeText. cbn [log on_state].
    by destruct (Htimes p) as [? | [_ ?]]. }
  split_and!.
  - by rewrite flagPlayer_timeText.
  - done.
  - rewrite Hshown. intros [= Htext].
    apply formatTime_zero_value in Htext; [done |].
    by apply time_of_inv, reachable_clock_inv.
Qed.

(** The bullet clock: repainted with half a second left (0:01), flagged
    by the next frame. *)
Lemma flagging_frame_does_not_repaint_witness :
  let w := run [PresetClick "bullet"; StartPauseClick; AnimationFrame 0;
                AnimationFrame (Qc_of_Z 59500)] (init initial_page) in
  timeText (screen_of (log (step (Qc_of_Z 60000) w)))
  = timeText (screen_of (log w))
  ∧ shown_time P0 (screen_of (log (step (Qc_of_Z 60000) w)))
    = Some (formatTime (time_of P0 (times (state w))))
  ∧ shown_time P0 (screen_of (log (step (Qc_of_Z 60000) w))) ≠ Some "0:00".
Proof.
  apply (flagging_frame_does_not_repaint
           (run [PresetClick "bullet"; StartPauseClick; AnimationFrame 0;
                 AnimationFrame (Qc_of_Z 59500)] (init initial_page))
           (Qc_of_Z 60000) P0).
  - cbn [run foldl]. do 4 apply reachable_handle. apply reachable_init.
  - vm_compute. reflexivity.
  - vm_compute. reflexivity.
  - apply strict_eq_false. vm_compute. reflexivity.
  - value_closed.
Defined.

(** After the flag the state says 0 and the document says 0:01. *)
Example stale_clock_face :
  let w := run [PresetClick "bullet"; StartPauseClick; AnimationFrame 0;
                AnimationFrame (Qc_of_Z 59500);
                AnimationFrame (Qc_of_Z 60000)] (init initial_page) in
  time_of P0 (times (state w)) = 0
  ∧ shown_time P0 (screen_of (log w)) = Some "0:01"
  ∧ statusText (screen_of (log w)) = Some "White flagged. Black wins.".
Proof.
  cbv zeta. split_and!.
  - value_closed.
  - vm_compute. reflexivity.
  - vm_compute. reflexivity.
Qed.

(** ** The classes of the player buttons *)

Lemma classes_of_snoc p l e :
  classes_of p (l ++ [e]) = paint_classes p (classes_of p l) e.
Proof. unfold classes_of. by rewrite foldl_app. Qed.

Ltac classes_cbn :=
  page_cbn; rewrite ?classes_of_snoc; cbn [paint_classes decide_rel
    player_eq_dec]; page_cbn.

Lemma handle_zero_ok e w :
  zero_ok (state w) → zero_ok (state (handle e w)).
Proof.
  intros Hz. destruct e; cbn [handle].
  - by rewrite state_handlePlayerTapStart.
  - destruct (state_handlePlayerTap p w) as [-> | (_ & _ & _ & ->)]; [done |].
    by intros q.
  - destruct (presets_get key) as [o |] eqn:Hget.
    + rewrite (state_applyPreset_found _ o) by done. by intros q.
    + by rewrite applyPreset_undefined.
  - unfold customSubmit. repeat case_match; try done.
  - rewrite state_toggleStart. destruct (running (state w)); by intros q.
  - unfold requestReset. by rewrite state_openResetModal.
  - rewrite state_swapPlayers. intros q Hrun Hact Hzero.
    destruct (state w) as [bm isec [t0 t1] ims [a |] rn lt rf pk] eqn:Hs;
      cbn in *; [| done].
    apply (Hz a); cbn; [done | done |].
    injection Hact as <-. by destruct a.
  - rewrite state_confirmReset. by intros q.
  - by rewrite state_closeResetModal.
  - by rewrite state_closeResetModal.
  - by rewrite state_closeResetModal.
  - destruct (state_step timestamp w) as [Hrun | Hrun Hact | p Hrun Hact Hzero
                                          | p Hrun Hact Hpos].
    + done.
    + intros q _ Hq. destruct (state w); cbn in *. congruence.
    + intros q Hq. by destruct (state w).
    + intros q _ Hq Hzero. exfalso. apply Hpos.
      assert (q = p) as -> by (destruct (state w); cbn in *; congruence).
      by destruct (state w).
Qed.

Ltac fresh_classes :=
  let q := fresh "q" in
  intros q; destruct q; classes_cbn;
  (eexists _, _; split; [reflexivity |]);
  let H := fresh in
  intros H; try discriminate H; subst;
  repeat match goal with |- context [bool_decide ?P] =>
    destruct (bool_decide P) end; done.

Lemma updated_classes_ok w :
  classes_ok (render (updateActiveClasses w)).
Proof.
  destruct w as [[bm isec tm ims ap rn lt rf pk] c f fr l].
  unfold_commands. page_cbn. fresh_classes.
Qed.

Lemma silent_classes_ok w w' :
  log w' = log w ∨ (∃ e, log w' = log w ++ [e]
                         ∧ ∀ p, paint_classes p (classes_of p (log w)) e
                                = classes_of p (log w)) →
  times (state w') = times (state w) →
  (running (state w') = true →
   running (state w) = true ∧ activePlayer (state w') = activePlayer (state w)) →
  classes_ok w → classes_ok w'.
Proof.
  intros Hlog Htimes Hrun Hok p. destruct (Hok p) as (a & i & Hc & Ha).
  exists a, i. rewrite Htimes. split.
  - destruct Hlog as [-> | (e & -> & He)]; [done |].
    by rewrite classes_of_snoc, He.
  - intros Hr. destruct (Hrun Hr) as [Hr' ->]. by apply Ha.
Qed.

Lemma handle_classes_ok e w :
  clock_inv (state w) → zero_ok (state w) →
  classes_ok w → classes_ok (handle e w).
Proof.
  intros Hclock Hzero Hok. destruct e; cbn [handle].
  - unfold handlePlayerTapStart. case_match; [done |].
    apply (silent_classes_ok w); [| done | done | done].
    right. by eexists.
  - destruct (handlePlayerTap_cases p w) as [-> | (? & ? & ?)]; [done |].
    rewrite handlePlayerTap_accepted by done. apply updated_classes_ok.
  - destruct (presets_get key) as [o |] eqn:Hget;
      [| by rewrite applyPreset_undefined].
    unfold applyPreset. rewrite Hget. clear.
    destruct w as [[bm isec tm ims ap rn lt rf pk] c f fr l].
    unfold_commands. page_cbn. destruct rf; page_cbn; fresh_classes.
  - unfold customSubmit. repeat case_match; try done. clear.
    destruct w as [[bm isec tm ims ap rn lt rf pk] c f fr l].
    unfold_commands. page_cbn. destruct rf; page_cbn; fresh_classes.
  - destruct (running (state w)) eqn:Hrun.
    + unfold toggleStart. rewrite Hrun. unfold_commands.
      intros q. destruct (Hok q) as (a & i & Hc & _). exists a, i.
      destruct w as [[bm isec tm ims ap rn lt rf pk] c f fr l].
      page_cbn. destruct rf; classes_cbn; by split.
    + clear Hok. destruct w as [[bm isec tm ims ap rn lt rf pk] c f fr l].
      unfold_commands. page_cbn. subst rn.
      destruct ap; page_cbn; fresh_classes.
  - unfold requestReset, openResetModal. case_match; [done |].
    apply (silent_classes_ok w); [| done | done | done].
    right. by eexists.
  - apply updated_classes_ok.
  - clear. unfold confirmReset, closeResetModal, andThen.
    destruct w as [[bm isec tm ims ap rn lt rf pk] c [] fr l];
      unfold_commands; page_cbn; destruct rf; page_cbn; fresh_classes.
  - unfold closeResetModal. case_match; [done |].
    apply (silent_classes_ok w); [| done | done | done].
    right. by eexists.
  - unfold closeResetModal. case_match; [done |].
    apply (silent_classes_ok w); [| done | done | done].
    right. by eexists.
  - unfold closeResetModal. case_match; [done |].
    apply (silent_classes_ok w); [| done | done | done].
    right. by eexists.
  - destruct (running (state w)) eqn:Hrun; [| by rewrite step_paused].
    destruct (activePlayer (state w)) as [p |] eqn:Hact; cycle 1.
    { rewrite step_idle by done. intros q.
      destruct (Hok q) as (a & i & Hc & Ha). exists a, i.
      destruct w as [[bm isec tm ims ap rn lt rf pk] c f fr l].
      unfold_commands. destruct q; classes_cbn; split; try done.
      all: intros _; by apply Ha. }
    rewrite (step_running _ _ p) by done.
    destruct (strict_eq _ _) eqn:Hz.
    + clear. generalize (on_state (ticked timestamp p) w). clear. intros w.
      destruct w as [[bm isec tm ims ap rn lt rf pk] c f fr l].
      unfold_commands. page_cbn. destruct rf; page_cbn; fresh_classes.
    + apply strict_eq_false in Hz.
      assert (time_of p (times (state w)) ≠ 0) as Hpos.
      { intros Hp. apply Hz. cbn [state on_state].
        rewrite ticked_baseline; [done | by apply (Hzero p) |].
        by apply time_of_inv. }
      intros q. destruct (Hok q) as (a & i & Hc & Ha). exists a, i.
      assert (strict_eq (time_of q (times (ticked timestamp p (state w)))) 0
              = strict_eq (time_of q (times (state w))) 0) as Hflag.
      { destruct (decide (q = p)) as [-> | Hq].
        - cbn [state on_state] in Hz.
          rewrite !(proj2 (strict_eq_false _ _)); done.
        - unfold ticked. cbn. by destruct p, q. }
      destruct w as [[bm isec tm ims ap rn lt rf pk] c f fr l].
      unfold_commands. page_cbn. rewrite ?classes_of_snoc.
      cbn [paint_classes]. rewrite Hflag. split; [done |].
      intros _. unfold ticked. page_cbn. by apply Ha.
Qed.

Lemma reachable_zero_ok w : reachable w → zero_ok (state w).
Proof.
  induction 1 as [| e w Hreach IH].
  - intros p Hrun. vm_compute in Hrun. discriminate Hrun.
  - by apply handle_zero_ok.
Qed.

Lemma reachable_classes_ok w : reachable w → classes_ok w.
Proof.
  induction 1 as [| e w Hreach IH].
  - intros p. exists false, false. split; [| intros H; vm_compute in H; discriminate H].
    destruct p; vm_compute; reflexivity.
  - apply handle_classes_ok;
      [by apply reachable_clock_inv | by apply reachable_zero_ok | done].
Qed.

(** X19.  The classes of the two player buttons.  In every reachable page
    the flagged class is on a button exactly when that side has no time
    left, and while the clock runs the active class is on the button of
    the side to move and the inactive class on the other one. *)
Theorem player_classes_track_state w p :
  reachable w →
  ∃ active inactive,
    classes_of p (log w)
    = Some (active, strict_eq (time_of p (times (state w))) 0, inactive)
    ∧ (running (state w) = true →
       active = bool_decide (activePlayer (state w) = Some p)
       ∧ inactive = negb active).
Proof. intros Hok%reachable_classes_ok. apply Hok. Qed.

(** Rapid after the first tap: side 1 is to move. *)
Lemma player_classes_track_state_witness :
  let w := run [StartPauseClick; AnimationFrame 0; PlayerClick P0]
               (init initial_page) in
  ∃ active inactive,
    classes_of P1 (log w)
    = Some (active, strict_eq (time_of P1 (times (state w))) 0, inactive)
    ∧ (running (state w) = true →
       active = bool_decide (activePlayer (state w) = Some P1)
       ∧ inactive = negb active).
Proof.
  apply (player_classes_track_state
           (run [StartPauseClick; AnimationFrame 0; PlayerClick P0]
                (init initial_page)) P1).
  cbn [run foldl]. do 3 apply reachable_handle. apply reachable_init.
Defined.

(** A pause does not touch the classes: the button of the side to move
    keeps the active class while the clock is stopped. *)
Example paused_clock_keeps_highlight :
  let w := run [StartPauseClick; AnimationFrame 0; StartPauseClick]
               (init initial_page) in
  running (state w) = false
  ∧ classes_of P0 (log w) = Some (true, false, false)
  ∧ classes_of P1 (log w) = Some (false, false, true).
Proof. cbv zeta. split_and!; vm_compute; reflexivity. Qed.
